(** * Verification of the postedworkers-automation helpers

    A shallow embedding of the TypeScript helpers of the repository:
    - [JsText]: [requireEnv] (src/unnamed/part_001, duplicated in
      src/tests/e2e.spec.ts) and [formatDateToDutchLocale]
      (src/tests/e2e.spec.ts), over JavaScript strings as lists of UTF-16
      code units;
    - [Pdok]: [pdokLookupPostalCode] (src/utils/pdok.ts) over a model of
      parsed JSON values with JavaScript truthiness;
    - [Locators]: the Playwright helpers of src/utils/elements.ts and
      [waitForStableLoad] (src/unnamed/part_002), written in a state and
      error monad over an abstract browser that answers each Playwright call
      and records it in a trace;
    - [Dom]: a concrete browser, a page of DOM nodes, used to run
      the helpers on explicit pages. *)

From Stdlib Require Import ZArith Bool List String Ascii Lia.
Import ListNotations.
Set Warnings "-register-all".
Open Scope Z_scope.

(* ------------------------------------------------------------------ *)
(** ** JavaScript strings *)

Module JsText.

(** A JavaScript string is a sequence of UTF-16 code units. *)
Definition jsstr := list Z.

(** Code units of an ASCII literal. *)
Definition units (s : string) : jsstr :=
  map (fun a => Z.of_nat (nat_of_ascii a)) (list_ascii_of_string s).

(** The characters removed by [String.prototype.trim]: ECMAScript
    WhiteSpace (TAB, VT, FF, ZWNBSP and the Unicode Zs category) and
    LineTerminator (LF, CR, LS, PS). *)
Definition js_ws (c : Z) : bool :=
  (c =? 9) || (c =? 10) || (c =? 11) || (c =? 12) || (c =? 13)
  || (c =? 32) || (c =? 160) || (c =? 5760)
  || ((8192 <=? c) && (c <=? 8202))
  || (c =? 8232) || (c =? 8233) || (c =? 8239) || (c =? 8287)
  || (c =? 12288) || (c =? 65279).

Fixpoint trim_start (s : jsstr) : jsstr :=
  match s with
  | [] => []
  | c :: s' => if js_ws c then trim_start s' else s
  end.

(** [s.trim()] *)
Definition trim (s : jsstr) : jsstr := rev (trim_start (rev (trim_start s))).

(** [!value] on a [string | undefined]: undefined or the empty string. *)
Definition falsy_str (v : option jsstr) : bool :=
  match v with
  | None => true
  | Some [] => true
  | Some _ => false
  end.

Definition missing_msg (name : jsstr) : jsstr :=
  units "Missing required env var: " ++ name.

(** [requireEnv(name)]: [inl] is the returned value, [inr] the message of
    the thrown [Error].  [env] is [process.env]. *)
Definition requireEnv (env : jsstr -> option jsstr) (name : jsstr)
  : jsstr + jsstr :=
  let value := env name in
  match value with
  | Some v =>
      if falsy_str value || falsy_str (Some (trim v))
      then inr (missing_msg name)
      else inl (trim v)
  | None => inr (missing_msg name)
  end.

Definition dot : Z := 46.
Definition dash : Z := 45.

(** [dotDate.replace(/\./g, '-')]: the global regular expression scans the
    string left to right and replaces each match of [.] by [-]. *)
Fixpoint replace_all_dots (s : jsstr) : jsstr :=
  match s with
  | [] => []
  | c :: s' => (if c =? dot then dash else c) :: replace_all_dots s'
  end.

Definition formatDateToDutchLocale (dotDate : jsstr) : jsstr :=
  replace_all_dots dotDate.

End JsText.

(* ------------------------------------------------------------------ *)
(** ** PDOK postal-code lookup *)

Module Pdok.

(** Parsed JSON values.  Numbers are kept as integers: only their
    truthiness is observed by the code. *)
Inductive json :=
| JNull
| JBool (b : bool)
| JNum (n : Z)
| JStr (s : string)
| JArr (xs : list json)
| JObj (fields : list (string * json)).

(** JavaScript truthiness of a value that may be [undefined] ([None]). *)
Definition truthy (v : option json) : bool :=
  match v with
  | None | Some JNull => false
  | Some (JBool b) => b
  | Some (JNum n) => negb (n =? 0)
  | Some (JStr s) => negb (String.eqb s "")
  | Some (JArr _) | Some (JObj _) => true
  end.

(** [JSON.parse] keeps the last of duplicated keys. *)
Fixpoint get_field (k : string) (fs : list (string * json)) : option json :=
  match fs with
  | [] => None
  | (k', v) :: fs' =>
      match get_field k fs' with
      | Some w => Some w
      | None => if String.eqb k k' then Some v else None
      end
  end.

(** [v?.k]: only objects carry the properties read here. *)
Definition prop (v : option json) (k : string) : option json :=
  match v with
  | Some (JObj fs) => get_field k fs
  | _ => None
  end.

(** [a || b] *)
Definition js_or (a b : option json) : option json :=
  if truthy a then a else b.

(** A response of [request.get]: its status and its body, [None] when the
    body is not JSON (then [response.json()] rejects). *)
Record response := { status : Z; body : option json }.

Definition ok (r : response) : bool := (200 <=? status r) && (status r <=? 299).

Inductive pdok_error :=
| HttpFailed (st : Z)
| InvalidJson
| NotIterable
| NoPostcode (query : string).

Inductive result :=
| Found (postcode : json)
| Failed (e : pdok_error).

(** [doc?.postcode || doc?.postalcode || doc?.pc6] *)
Definition doc_postcode (doc : json) : option json :=
  js_or (prop (Some doc) "postcode")
        (js_or (prop (Some doc) "postalcode") (prop (Some doc) "pc6")).

(** [for (const doc of docs) { ...; if (postcode) return postcode; }] *)
Fixpoint scan_docs (docs : list json) : option json :=
  match docs with
  | [] => None
  | doc :: docs' =>
      let postcode := doc_postcode doc in
      match postcode with
      | Some v => if truthy postcode then Some v else scan_docs docs'
      | None => scan_docs docs'
      end
  end.

Definition chars (s : string) : list json :=
  map (fun a => JStr (String a EmptyString)) (list_ascii_of_string s).

Section Lookup.
(** The HTTP client and [encodeURIComponent]. *)
Variable encodeURIComponent : string -> string.
Variable get : string -> response.

(** [`${street} ${houseNumber}, ${city}`] *)
Definition lookup_query (street houseNumber city : string) : string :=
  (street ++ " " ++ houseNumber ++ ", " ++ city)%string.

Definition lookup_url (street houseNumber city : string) : string :=
  ("https://api.pdok.nl/bzk/locatieserver/search/v3_1/free?q="
     ++ encodeURIComponent (lookup_query street houseNumber city) ++ "&rows=5")%string.

Definition pdokLookupPostalCode (street houseNumber city : string) : result :=
  let query := lookup_query street houseNumber city in
  let lookupUrl := lookup_url street houseNumber city in
  let resp := get lookupUrl in
  if negb (ok resp) then Failed (HttpFailed (status resp)) else
  match body resp with
  | None => Failed InvalidJson
  | Some responseData =>
      let docs := js_or (prop (prop (Some responseData) "response") "docs")
                        (Some (JArr [])) in
      let iterated :=
        match docs with
        | Some (JArr ds) => Some ds
        | Some (JStr s) => Some (chars s)
        | _ => None
        end in
      match iterated with
      | None => Failed NotIterable
      | Some ds =>
          match scan_docs ds with
          | Some v => Found v
          | None => Failed (NoPostcode query)
          end
      end
  end.
End Lookup.

(** The documents a reader of the response regards as candidates: the
    elements of [response.docs] when it is an array. *)
Definition candidate_docs (r : response) : list json :=
  match body r with
  | Some d =>
      match prop (prop (Some d) "response") "docs" with
      | Some (JArr ds) => ds
      | _ => []
      end
  | None => []
  end.

(** A document carries a postal code under one of the known names. *)
Definition carries_postcode (doc : json) : bool :=
  truthy (prop (Some doc) "postcode") || truthy (prop (Some doc) "postalcode")
  || truthy (prop (Some doc) "pc6").

End Pdok.

(* ------------------------------------------------------------------ *)
(** ** The Playwright helpers of src/utils/elements.ts *)

Module Locators.

(** A label argument: a string, or a [RegExp] given by its [test]. *)
Inductive matcher :=
| MStr (s : string)
| MRegExp (test : string -> bool).

(** The locators the helpers build, one constructor per selector form. *)
Inductive loc :=
| ByRole (role : string) (name : matcher) (exact : bool)  (* getByRole(role, { name, exact }) *)
| ByLabel (text : matcher) (exact : bool)                 (* getByLabel(text, { exact }) *)
| LabelHasTextSel (text : string)                         (* locator(`label:has-text("${text}")`) *)
| TagHasText (tag : string) (text : matcher)              (* locator(tag, { hasText: text }) *)
| TagHas (tag : string) (has : loc)                       (* locator(tag, { has }) *)
| IdSel (id : string)                                     (* locator(`#${id}`) *)
| ClassSel (cls : string)                                 (* locator('.cls') *)
| TextIsSel (text : string)                               (* locator(`text="${text}"`) *)
| XPathParent                                             (* locator('xpath=..') *)
| InputOrTextarea                                         (* locator('input, textarea') *)
| CheckboxInput                                           (* locator('input[type="checkbox"]') *)
| Within (scope : loc) (inner : loc)                      (* scope.locator(inner), scope.getByLabel(..) *)
| First (l : loc)                                         (* l.first() *)
| Last (l : loc).                                         (* l.last() *)

(** The Playwright calls the helpers make; timeouts in milliseconds, [None]
    for the default one. *)
Inductive action :=
| Click (l : loc) (timeout : option Z)
| Fill (l : loc) (v : string)
| InputValue (l : loc)
| PressSequentially (l : loc) (v : string)
| Press (l : loc) (key : string)
| WaitForVisible (l : loc) (timeout : Z)            (* l.waitFor({ state: 'visible', timeout }) *)
| GetAttribute (l : loc) (attr : string)
| Check (l : loc) (timeout : option Z)
| ExpectVisible (l : loc) (timeout : option Z)      (* expect(l).toBeVisible(..) *)
| ExpectEnabled (l : loc) (timeout : option Z)      (* expect(l).toBeEnabled(..) *)
| ExpectValue (l : loc) (v : string)                (* expect(l).toHaveValue(v) *)
| ScrollIntoViewIfNeeded (l : loc)
| EvaluateClick (l : loc)                           (* l.evaluate(el => el.click()) *)
| WaitForLoadState (st : string)
| WaitForTimeout (ms : Z)
| ConsoleLog (msg : string).

(** What a resolved call yields: nothing, a string, or [null]. *)
Inductive reply := RDone | RStr (s : string) | RNull.

(** A browser answers a call on its page: [None] when the call rejects
    (timeout, strict-mode violation, failed assertion, ...). *)
Class Browser (P : Type) := run : action -> P -> option reply * P.

Section Helpers.
Context {P : Type} `{Browser P}.

(** The state of a test: the page and the calls made so far. *)
Definition state := (P * list action)%type.

(** An [async] computation: it resolves with a value or rejects. *)
Definition M (A : Type) := state -> option A * state.

Definition ret {A} (x : A) : M A := fun s => (Some x, s).

Definition throw {A} : M A := fun s => (None, s).

Definition bind {A B} (m : M A) (k : A -> M B) : M B :=
  fun s => match m s with
           | (Some x, s') => k x s'
           | (None, s') => (None, s')
           end.

(** [try { m } catch {} h]: [h] runs only when [m] rejects, from the
    state [m] left behind. *)
Definition try_catch {A} (m h : M A) : M A :=
  fun s => match m s with
           | (Some x, s') => (Some x, s')
           | (None, s') => h s'
           end.

(** [await <call>]: ask the browser and record the call. *)
Definition act (a : action) : M reply :=
  fun s => let '(r, p') := run a (fst s) in (r, (p', snd s ++ [a])).

End Helpers.

Module MonadNotations.
Notation "x <- m ;; k" := (bind m (fun x => k))
  (at level 61, m at next level, right associativity).
Notation "m ;; k" := (bind m (fun _ => k)) (at level 61, right associativity).
End MonadNotations.
Import MonadNotations.

Section Elements.
Context {P : Type} `{Browser P}.

Definition act_ (a : action) : M unit := _ <- act a ;; ret tt.

(** [await l.inputValue()] resolves with a string. *)
Definition inputValue (l : loc) : M string :=
  r <- act (InputValue l) ;;
  match r with RStr s => ret s | _ => throw end.

(** [await l.getAttribute(a)] resolves with a string or [null]. *)
Definition getAttribute (l : loc) (a : string) : M (option string) :=
  r <- act (GetAttribute l a) ;;
  match r with RStr s => ret (Some s) | RNull => ret None | RDone => throw end.

(** [x ? a : b] on a [string | null]. *)
Definition if_truthy {A} (x : option string) (a : string -> A) (b : A) : A :=
  match x with
  | Some s => if String.eqb s "" then b else a s
  | None => b
  end.

(** src/unnamed/part_002 *)
Definition waitForStableLoad : M unit :=
  act_ (WaitForLoadState "networkidle") ;;
  act_ (WaitForTimeout 250).

Definition selectMatOption (optionText : string) : M unit :=
  try_catch
    (let option := ByRole "option" (MStr optionText) true in
     act_ (WaitForVisible option 1000) ;;
     act_ (Click option (Some 1000)))
  (try_catch
    (let option := First (TagHasText "mat-option" (MStr optionText)) in
     act_ (WaitForVisible option 1000) ;;
     act_ (Click option (Some 1000)))
  (let fallback := First (TextIsSel optionText) in
   act_ (WaitForVisible fallback 1000) ;;
   act_ (Click fallback None))).

Definition setInputValue (input : loc) (value : string) : M unit :=
  act_ (Click input (Some 1000)) ;;
  act_ (Fill input value) ;;
  cur <- inputValue input ;;
  (if negb (String.eqb cur value)
   then act_ (Fill input "") ;; act_ (PressSequentially input value)
   else ret tt) ;;
  act_ (ExpectValue input value) ;;
  try_catch (act_ (Press input "Tab")) (ret tt).

(** The first [try] block of [fillTextByLabel]. *)
Definition fill_by_label (labelText value : string) : M unit :=
  let field := ByLabel (MStr labelText) true in
  act_ (ExpectVisible field (Some 1000)) ;;
  setInputValue field value.

(** The label of the raw-DOM strategy and the input it designates. *)
Definition raw_label (labelText : string) : loc :=
  First (LabelHasTextSel labelText).

Definition raw_input (labelText : string) (forAttr : option string) : loc :=
  if_truthy forAttr IdSel
    (First (Within (Within (raw_label labelText) XPathParent) InputOrTextarea)).

(** The code after the [try] block of [fillTextByLabel]. *)
Definition fill_by_raw_dom (labelText value : string) : M unit :=
  let label := raw_label labelText in
  act_ (WaitForVisible label 1000) ;;
  forAttr <- getAttribute label "for" ;;
  let input := raw_input labelText forAttr in
  act_ (ExpectVisible input (Some 1000)) ;;
  setInputValue input value.

Definition fillTextByLabel (labelText value : string) : M unit :=
  try_catch (fill_by_label labelText value) (fill_by_raw_dom labelText value).

(** The three blocks of [selectMatOptionByLabel]. *)
Definition select_by_label (labelText optionText : string) : M unit :=
  let field := ByLabel (MStr labelText) true in
  act_ (Click field (Some 1000)) ;;
  selectMatOption optionText.

Definition select_by_component (labelText optionText : string) : M unit :=
  let container := TagHas "bq-select" (LabelHasTextSel labelText) in
  act_ (WaitForVisible container 1000) ;;
  let trigger := Within container (ClassSel "mat-mdc-select-trigger") in
  act_ (Click trigger (Some 1000)) ;;
  selectMatOption optionText.

Definition select_by_raw_dom (labelText optionText : string) : M unit :=
  let label := First (LabelHasTextSel labelText) in
  act_ (WaitForVisible label 1000) ;;
  forAttribute <- getAttribute label "for" ;;
  if_truthy forAttribute
    (fun f => act_ (Click (IdSel f) (Some 1000)))
    (act_ (Click label (Some 1000))) ;;
  selectMatOption optionText.

Definition selectMatOptionByLabel (labelText optionText : string) : M unit :=
  try_catch (select_by_label labelText optionText)
  (try_catch (select_by_component labelText optionText)
   (select_by_raw_dom labelText optionText)).

(** The three blocks of [setRadioByLabel]. *)
Definition radio_by_role (groupLabel : matcher) (optionText : string) : M unit :=
  let group := ByRole "radiogroup" groupLabel false in
  let option := Within group (ByLabel (MStr optionText) true) in
  act_ (Check option (Some 1000)).

Definition radio_by_component (groupLabel : matcher) (optionText : string)
  : M unit :=
  let container := TagHas "bq-radio-button" (TagHasText "label" groupLabel) in
  act_ (WaitForVisible container 1000) ;;
  let optionLabel := First (Within container (TagHasText "label" (MStr optionText))) in
  act_ (Click optionLabel (Some 1000)).

Definition radio_by_option_label (optionText : string) : M unit :=
  let fallback := ByLabel (MStr optionText) true in
  act_ (ExpectVisible fallback None) ;;
  act_ (Check fallback None).

Definition setRadioByLabel (groupLabel : matcher) (optionText : string) : M unit :=
  try_catch (radio_by_role groupLabel optionText)
  (try_catch (radio_by_component groupLabel optionText)
   (radio_by_option_label optionText)).

(** The four blocks of [setCheckboxByLabel]. *)
Definition checkbox_by_role (labelText : matcher) : M unit :=
  let checkbox := ByRole "checkbox" labelText false in
  act_ (Check checkbox (Some 1000)).

Definition checkbox_by_label (labelText : matcher) : M unit :=
  let checkbox := ByLabel labelText true in
  act_ (Check checkbox (Some 1000)).

Definition checkbox_by_component (labelText : matcher) : M unit :=
  let container := TagHas "bq-checkbox" (TagHasText "label" labelText) in
  act_ (WaitForVisible container 1000) ;;
  let label := First (Within container (TagHasText "label" labelText)) in
  act_ (Click label (Some 1000)).

Definition checkbox_by_raw_dom (labelText : matcher) : M unit :=
  let label := First (TagHasText "label" labelText) in
  act_ (WaitForVisible label 1000) ;;
  forAttr <- getAttribute label "for" ;;
  let input := if_truthy forAttr IdSel (First (Within label CheckboxInput)) in
  try_catch (act_ (Check input (Some 1000)))
            (act_ (Click label (Some 1000))).

Definition setCheckboxByLabel (labelText : matcher) : M unit :=
  try_catch (checkbox_by_role labelText)
  (try_catch (checkbox_by_label labelText)
  (try_catch (checkbox_by_component labelText)
   (checkbox_by_raw_dom labelText))).

Definition dq : string := String (ascii_of_nat 34) EmptyString.

(** [console.log(msg)]: recorded in the trace; it never rejects. *)
Definition console_log (msg : string) : @M P unit :=
  fun s : state => (Some tt, (fst s, snd s ++ [ConsoleLog msg])).

Definition fallback_msg (buttonText : string) : string :=
  ("Standard click on " ++ dq ++ buttonText ++ dq
   ++ " button failed, falling back to DOM click()")%string.

(** The button [clickProceed] acts on. *)
Definition proceed_button (buttonText : string) : loc :=
  Last (ByRole "button" (MStr buttonText) false).

Definition clickProceed (buttonText : string) : M unit :=
  let button := proceed_button buttonText in
  act_ (ExpectVisible button (Some 10000)) ;;
  act_ (ExpectEnabled button (Some 10000)) ;;
  act_ (ScrollIntoViewIfNeeded button) ;;
  try_catch (act_ (Click button (Some 10000)))
    (console_log (fallback_msg buttonText) ;;
     act_ (EvaluateClick button)) ;;
  waitForStableLoad.

(** An ordered chain of strategies: each is tried only when all earlier
    ones rejected, and the last one's outcome is final. *)
Fixpoint chain (strategies : list (@M P unit)) (last : @M P unit) : @M P unit :=
  match strategies with
  | [] => last
  | s :: rest => try_catch s (chain rest last)
  end.

End Elements.

End Locators.

(* ------------------------------------------------------------------ *)
(** ** A concrete browser: a page of DOM nodes

    The page is a list of nodes in document order, each pointing to its
    parent.  Locators resolve as Playwright resolves them (string name and
    text matching case-insensitive by substring unless [exact]; whitespace
    normalisation is not modelled).  The page changes only through the calls
    of the test: there are no timers or network, so a wait succeeds exactly
    when its condition already holds.  Not modelled: radio groups (checking
    a radio leaves the other radios of its group as they are) and page
    scripts (a click reveals nodes and checks or toggles a control, but never
    changes a field's value). *)

Module Dom.
Import Locators.

Record node := mkNode {
  tag : string;
  id : string;                  (* "" when absent *)
  classes : list string;
  parent : option nat;
  text : string;                (* own text; the pages below put text on leaves only *)
  for_attr : option string;
  input_type : string;
  role : string;                (* computed ARIA role, "" for none *)
  name : string;                (* accessible name *)
  label_text : string;          (* text of the label or aria-label naming it, "" for none *)
  ax_hidden : bool;             (* outside the accessibility tree (display: none, aria-hidden) *)
  visible : bool;
  enabled : bool;
  checked : bool;
  value : string;
  on_fill : string -> string;   (* value kept after a programmatic fill with the argument *)
  on_type : string -> string;   (* value kept after the argument has been typed key by key *)
  on_blur : string -> string;   (* value kept when the focus leaves the field *)
  reveals : list nat            (* nodes shown when the node is clicked (an option panel) *)
}.

Definition page := list node.

Definition set_value (v : string) (n : node) : node :=
  {| tag := tag n; id := id n; classes := classes n; parent := parent n;
     text := text n; for_attr := for_attr n; input_type := input_type n;
     role := role n; name := name n; label_text := label_text n;
     ax_hidden := ax_hidden n; visible := visible n; enabled := enabled n;
     checked := checked n; value := v; on_fill := on_fill n;
     on_type := on_type n; on_blur := on_blur n; reveals := reveals n |}.

Definition set_checked (b : bool) (n : node) : node :=
  {| tag := tag n; id := id n; classes := classes n; parent := parent n;
     text := text n; for_attr := for_attr n; input_type := input_type n;
     role := role n; name := name n; label_text := label_text n;
     ax_hidden := ax_hidden n; visible := visible n; enabled := enabled n;
     checked := b; value := value n; on_fill := on_fill n;
     on_type := on_type n; on_blur := on_blur n; reveals := reveals n |}.

(** Showing a node ([display] set) also puts it in the accessibility tree. *)
Definition set_visible (b : bool) (n : node) : node :=
  {| tag := tag n; id := id n; classes := classes n; parent := parent n;
     text := text n; for_attr := for_attr n; input_type := input_type n;
     role := role n; name := name n; label_text := label_text n;
     ax_hidden := negb b; visible := b; enabled := enabled n;
     checked := checked n; value := value n; on_fill := on_fill n;
     on_type := on_type n; on_blur := on_blur n; reveals := reveals n |}.

Fixpoint update (pg : page) (i : nat) (f : node -> node) : page :=
  match pg, i with
  | [], _ => []
  | n :: pg', O => f n :: pg'
  | n :: pg', S i' => n :: update pg' i' f
  end.

Definition lower_ascii (a : ascii) : ascii :=
  let n := nat_of_ascii a in
  if ((65 <=? n) && (n <=? 90))%nat then ascii_of_nat (n + 32) else a.

Fixpoint lower (s : string) : string :=
  match s with
  | EmptyString => EmptyString
  | String a s' => String (lower_ascii a) (lower s')
  end.

Definition contains_ci (hay needle : string) : bool :=
  match index 0 (lower needle) (lower hay) with Some _ => true | None => false end.

Definition matches (m : matcher) (exact : bool) (s : string) : bool :=
  match m with
  | MStr t => if exact then String.eqb s t else contains_ci s t
  | MRegExp test => test s
  end.

Definition node_ok (pg : page) (p : node -> bool) (i : nat) : bool :=
  match nth_error pg i with Some n => p n | None => false end.

(** [r] is a proper ancestor of [i]. *)
Fixpoint has_ancestor (fuel : nat) (pg : page) (i r : nat) : bool :=
  match fuel with
  | O => false
  | S f =>
      match nth_error pg i with
      | Some n =>
          match parent n with
          | Some p => Nat.eqb p r || has_ancestor f pg p r
          | None => false
          end
      | None => false
      end
  end.

Definition is_desc (pg : page) (i r : nat) : bool := has_ancestor (List.length pg) pg i r.

Definition parent_of (pg : page) (r : nat) : list nat :=
  match nth_error pg r with
  | Some n => match parent n with Some p => [p] | None => [] end
  | None => []
  end.

Definition last_one (xs : list nat) : list nat :=
  match rev xs with x :: _ => [x] | [] => [] end.

Definition is_tag (t : string) (n : node) : bool := String.eqb (tag n) t.

(** The nodes a locator matches, in document order; [scope] is the set of
    nodes a chained locator is evaluated in ([None]: the whole page). *)
Fixpoint eval (pg : page) (scope : option (list nat)) (l : loc) {struct l}
  : list nat :=
  let all := seq 0 (List.length pg) in
  let cands :=
    match scope with
    | None => all
    | Some rs => filter (fun i => existsb (is_desc pg i) rs) all
    end in
  let sel (p : node -> bool) := filter (node_ok pg p) cands in
  match l with
  | ByRole r m ex =>
      sel (fun n => String.eqb (role n) r && negb (ax_hidden n) && matches m ex (name n))
  | ByLabel m ex =>
      sel (fun n => negb (String.eqb (label_text n) "") && matches m ex (label_text n))
  | LabelHasTextSel t => sel (fun n => is_tag "label" n && contains_ci (text n) t)
  | TagHasText tg m => sel (fun n => is_tag tg n && matches m false (text n))
  | TagHas tg h =>
      filter (fun i => node_ok pg (is_tag tg) i
                       && negb (match eval pg (Some [i]) h with [] => true | _ => false end))
             cands
  | IdSel s => sel (fun n => String.eqb (id n) s)
  | ClassSel c => sel (fun n => existsb (String.eqb c) (classes n))
  | TextIsSel t => sel (fun n => String.eqb (text n) t)
  | XPathParent =>
      match scope with None => [] | Some rs => flat_map (parent_of pg) rs end
  | InputOrTextarea => sel (fun n => is_tag "input" n || is_tag "textarea" n)
  | CheckboxInput => sel (fun n => is_tag "input" n && String.eqb (input_type n) "checkbox")
  | Within s inner => eval pg (Some (eval pg scope s)) inner
  | First l' => firstn 1 (eval pg scope l')
  | Last l' => last_one (eval pg scope l')
  end.

(** Strict mode: an action needs exactly one matching node. *)
Definition the_one (pg : page) (l : loc) : option nat :=
  match eval pg None l with [i] => Some i | _ => None end.

Definition editable (n : node) : bool :=
  (is_tag "input" n && negb (String.eqb (input_type n) "checkbox")
                    && negb (String.eqb (input_type n) "radio"))
  || is_tag "textarea" n.

Definition is_radio (n : node) : bool :=
  String.eqb (input_type n) "radio" || String.eqb (role n) "radio".

Definition checkable (n : node) : bool :=
  (is_tag "input" n && (String.eqb (input_type n) "checkbox"
                        || String.eqb (input_type n) "radio"))
  || String.eqb (role n) "checkbox" || String.eqb (role n) "radio".

(** The control a label activates: the node named by its [for] attribute,
    else the first input inside it. *)
Definition label_control (pg : page) (i : nat) (n : node) : option nat :=
  let all := seq 0 (List.length pg) in
  if_truthy (for_attr n)
    (fun f => find (node_ok pg (fun m => String.eqb (id m) f)) all)
    (find (fun j => is_desc pg j i && node_ok pg (is_tag "input") j) all).

(** Activating a checkable control checks a radio and toggles a checkbox. *)
Definition toggle (pg : page) (j : nat) : page :=
  match nth_error pg j with
  | Some m =>
      if checkable m
      then update pg j (set_checked (if is_radio m then true else negb (checked m)))
      else pg
  | None => pg
  end.

(** The effect of a click on node [i]. *)
Definition activate (pg : page) (i : nat) : page :=
  match nth_error pg i with
  | Some n =>
      let pg1 := fold_left (fun q r => update q r (set_visible true)) (reveals n) pg in
      if is_tag "label" n
      then match label_control pg1 i n with Some j => toggle pg1 j | None => pg1 end
      else toggle pg1 i
  | None => pg
  end.

Definition on_one (pg : page) (l : loc) (k : nat -> node -> option reply * page)
  : option reply * page :=
  match the_one pg l with
  | Some i => match nth_error pg i with Some n => k i n | None => (None, pg) end
  | None => (None, pg)
  end.

Definition when (b : bool) (pg : page) : option reply * page :=
  if b then (Some RDone, pg) else (None, pg).

Definition dom_run (a : action) (pg : page) : option reply * page :=
  match a with
  | Click l _ =>
      on_one pg l (fun i n => if visible n && enabled n
                              then (Some RDone, activate pg i) else (None, pg))
  | EvaluateClick l =>
      on_one pg l (fun i n => (Some RDone, if enabled n then activate pg i else pg))
  | Fill l v =>
      on_one pg l (fun i n =>
        if visible n && enabled n && editable n
        then (Some RDone, update pg i (set_value (on_fill n v))) else (None, pg))
  | InputValue l =>
      on_one pg l (fun _ n => if editable n then (Some (RStr (value n)), pg) else (None, pg))
  | PressSequentially l v =>
      on_one pg l (fun i n =>
        (Some RDone,
         if editable n then update pg i (set_value (on_type n (value n ++ v))) else pg))
  | Press l key =>
      on_one pg l (fun i n =>
        (Some RDone,
         if String.eqb key "Tab" && editable n
         then update pg i (set_value (on_blur n (value n))) else pg))
  | WaitForVisible l _ | ExpectVisible l _ => on_one pg l (fun _ n => when (visible n) pg)
  | GetAttribute l a =>
      on_one pg l (fun _ n =>
        (Some (if String.eqb a "for"
               then match for_attr n with Some s => RStr s | None => RNull end
               else RNull), pg))
  | Check l _ =>
      on_one pg l (fun i n =>
        if negb (checkable n) then (None, pg)
        else if checked n then (Some RDone, pg)
        else if visible n && enabled n
        then (Some RDone, update pg i (set_checked true)) else (None, pg))
  | ExpectEnabled l _ => on_one pg l (fun _ n => when (enabled n) pg)
  | ExpectValue l v =>
      on_one pg l (fun _ n => when (editable n && String.eqb (value n) v) pg)
  | ScrollIntoViewIfNeeded l => on_one pg l (fun _ _ => (Some RDone, pg))
  | WaitForLoadState _ | WaitForTimeout _ | ConsoleLog _ => (Some RDone, pg)
  end.

#[export] Instance dom_browser : Browser page := dom_run.

(** Run a helper on a page with an empty trace. *)
Definition exec {A} (m : @M page A) (pg : page) : option A * (page * list action) :=
  m (pg, []).

End Dom.

(* ------------------------------------------------------------------ *)
(** ** Example pages *)

Module Pages.
Import Locators Dom.
Local Open Scope string_scope.

Definition id_str (v : string) : string := v.

Definition container (tg : string) (par : option nat) (vis : bool) : node :=
  {| tag := tg; id := ""; classes := []; parent := par; text := "";
     for_attr := None; input_type := ""; role := ""; name := ""; label_text := "";
     ax_hidden := negb vis; visible := vis; enabled := true; checked := false;
     value := ""; on_fill := id_str; on_type := id_str; on_blur := id_str;
     reveals := [] |}.

Definition label_node (txt : string) (for_ : option string) (par : option nat)
  (vis : bool) : node :=
  {| tag := "label"; id := ""; classes := []; parent := par; text := txt;
     for_attr := for_; input_type := ""; role := ""; name := ""; label_text := "";
     ax_hidden := negb vis; visible := vis; enabled := true; checked := false;
     value := ""; on_fill := id_str; on_type := id_str; on_blur := id_str;
     reveals := [] |}.

(** A text input; [lbl] is the text of the label associated with it. *)
Definition text_input (id_ lbl : string) (par : option nat)
  (blur : string -> string) : node :=
  {| tag := "input"; id := id_; classes := []; parent := par; text := "";
     for_attr := None; input_type := "text"; role := "textbox"; name := lbl;
     label_text := lbl; ax_hidden := false; visible := true; enabled := true;
     checked := false; value := ""; on_fill := id_str; on_type := id_str;
     on_blur := blur; reveals := [] |}.

Definition checkbox_input (id_ lbl : string) (par : option nat) (vis chk : bool)
  : node :=
  {| tag := "input"; id := id_; classes := []; parent := par; text := "";
     for_attr := None; input_type := "checkbox"; role := "checkbox"; name := lbl;
     label_text := lbl; ax_hidden := negb vis; visible := vis; enabled := true;
     checked := chk; value := "on"; on_fill := id_str; on_type := id_str;
     on_blur := id_str; reveals := [] |}.

(** An element showing a text, e.g. a table cell or a custom option. *)
Definition text_el (tg txt : string) (par : option nat) (vis : bool) : node :=
  {| tag := tg; id := ""; classes := []; parent := par; text := txt;
     for_attr := None; input_type := ""; role := ""; name := txt; label_text := "";
     ax_hidden := negb vis; visible := vis; enabled := true; checked := false;
     value := ""; on_fill := id_str; on_type := id_str; on_blur := id_str;
     reveals := [] |}.

(** A select whose click shows the nodes of its option panel. *)
Definition select_el (lbl : string) (panel : list nat) : node :=
  {| tag := "mat-select"; id := ""; classes := []; parent := None; text := "";
     for_attr := None; input_type := ""; role := "combobox"; name := lbl;
     label_text := lbl; ax_hidden := false; visible := true; enabled := true;
     checked := false; value := ""; on_fill := id_str; on_type := id_str;
     on_blur := id_str; reveals := panel |}.

Definition listbox (vis : bool) : node :=
  {| tag := "div"; id := ""; classes := []; parent := None; text := "";
     for_attr := None; input_type := ""; role := "listbox"; name := "";
     label_text := ""; ax_hidden := negb vis; visible := vis; enabled := true;
     checked := false; value := ""; on_fill := id_str; on_type := id_str;
     on_blur := id_str; reveals := [] |}.

(** A date picker that rewrites the date it parsed as DD/MM/YYYY when the
    focus leaves it. *)
Fixpoint slash_date (s : string) : string :=
  match s with
  | EmptyString => EmptyString
  | String a s' => String (if Ascii.eqb a "-"%char then "/"%char else a) (slash_date s')
  end.

Definition date_page : page :=
  [ container "div" None true;
    label_node "Posting start date" (Some "start") (Some 0%nat) true;
    text_input "start" "Posting start date" (Some 0%nat) slash_date ].


(** A label with no [for] next to an input it does not name. *)
Definition raw_page : page :=
  [ container "div" None true;
    label_node "Email address *" None (Some 0%nat) true;
    text_input "email" "" (Some 0%nat) id_str ].

(** A hidden label precedes the visible label of the field. *)
Definition hidden_label_page : page :=
  [ container "div" None false;
    label_node "Email address" (Some "old-email") (Some 0%nat) false;
    container "div" None true;
    label_node "Email address *" (Some "email") (Some 2%nat) true;
    text_input "email" "Email address *" (Some 2%nat) id_str ].

(** A checked component-library checkbox whose native input is hidden. *)
Definition terms_page : page :=
  [ container "bq-checkbox" None true;
    checkbox_input "terms" "I accept the terms *" (Some 0%nat) false true;
    label_node "I accept the terms *" (Some "terms") (Some 0%nat) true ].

(** A select whose options are custom elements without the option role,
    rendered in a panel after a table cell that shows the same text. *)
Definition country_page : page :=
  [ text_el "td" "Slovakia" None true;
    select_el "Country of establishment" [2; 3; 4]%nat;
    listbox false;
    text_el "bq-option" "Czechia" (Some 2%nat) false;
    text_el "bq-option" "Slovakia" (Some 2%nat) false ].

End Pages.

(* ------------------------------------------------------------------ *)
(** ** Observations on traces and pages used by the statements below *)

Module Observe.
Import Locators Dom.

(** The locator a call acts on. *)
Definition action_loc (a : action) : option loc :=
  match a with
  | Click l _ | Fill l _ | InputValue l | PressSequentially l _ | Press l _
  | WaitForVisible l _ | GetAttribute l _ | Check l _ | ExpectVisible l _
  | ExpectEnabled l _ | ExpectValue l _ | ScrollIntoViewIfNeeded l
  | EvaluateClick l => Some l
  | WaitForLoadState _ | WaitForTimeout _ | ConsoleLog _ => None
  end.

Definition library_tag (t : string) : bool :=
  String.prefix "bq-" t || String.prefix "mat-" t.

(** A locator of the component-library strategy: it names a [bq-*] or
    [mat-*] element or class. *)
Fixpoint component_loc (l : loc) : bool :=
  match l with
  | TagHasText t _ => library_tag t
  | TagHas t h => library_tag t || component_loc h
  | ClassSel c => library_tag c
  | Within a b => component_loc a || component_loc b
  | First l' | Last l' => component_loc l'
  | _ => false
  end.

Definition component_call (a : action) : bool :=
  match action_loc a with Some l => component_loc l | None => false end.

(** The node the last click of a trace acted on, resolved in [pg]. *)
Definition last_clicked (pg : page) (tr : list action) : option nat :=
  match filter (fun a => match a with Click _ _ => true | _ => false end) (rev tr) with
  | Click l _ :: _ => the_one pg l
  | _ => None
  end.

Definition labels_containing (pg : page) (t : string) : list nat :=
  filter (node_ok pg (fun n => is_tag "label" n && contains_ci (text n) t))
         (seq 0 (List.length pg)).

(** The raw-DOM strategy as the spec sentence of claim C8 words it: the
    first VISIBLE label containing the text; the node whose id is its
    [for] attribute, else the first input or textarea under the label's
    parent. *)
Definition claimed_raw_target (pg : page) (t : string) : option nat :=
  let all := seq 0 (List.length pg) in
  match filter (node_ok pg visible) (labels_containing pg t) with
  | i :: _ =>
      match nth_error pg i with
      | Some lb =>
          match for_attr lb with
          | Some f => find (node_ok pg (fun n => String.eqb (id n) f)) all
          | None =>
              find (fun j => existsb (is_desc pg j) (parent_of pg i)
                             && node_ok pg (fun n => is_tag "input" n || is_tag "textarea" n) j)
                   all
          end
      | None => None
      end
  | [] => None
  end.

(** Values and checked states of a page. *)
Definition values (pg : page) : list string := map value pg.
Definition checks (pg : page) : list bool := map checked pg.

End Observe.

(** The stub response of the end-to-end scenario. *)
Definition pdok_stub : Pdok.response :=
  {| Pdok.status := 200;
     Pdok.body := Some (Pdok.JObj [("response"%string,
                    Pdok.JObj [("docs"%string,
                      Pdok.JArr [Pdok.JObj [("pc6"%string, Pdok.JStr "1017GB")]])])]) |}.

(* ------------------------------------------------------------------ *)
(** ** Runs in closed form

    When the fields a text-field helper clicks react to a click with
    nothing but focus, a run of the helper is determined by the page with
    its values erased: its result, the calls it records and the value
    writes it makes. *)

Module ClosedForm.
Import Locators Dom.

(** A node with its value erased: everything locators and actions read
    apart from the value. *)
Definition shape (n : node) : node := set_value "" n.

(** Clicking node [i] has no side effect: it reveals nothing and checks or
    toggles nothing, neither itself nor, for a label, the control it names. *)
Definition click_inert (pg : page) (i : nat) : bool :=
  match nth_error pg i with
  | Some n =>
      match reveals n with
      | [] =>
          if is_tag "label" n
          then match label_control pg i n with
               | Some j => node_ok pg (fun m => negb (checkable m)) j
               | None => true
               end
          else negb (checkable n)
      | _ => false
      end
  | None => true
  end.

(** Clicking the node [l] resolves to has no side effect. *)
Definition quiet (pg : page) (l : loc) : bool :=
  match the_one pg l with Some i => click_inert pg i | None => true end.



(** A list of value writes, applied in order. *)
Definition writes (pg : page) (ws : list (nat * string)) : page :=
  fold_left (fun q '(i, w) => update q i (set_value w)) ws pg.






(** On the pages satisfying [q], the action reads only what the erased page
    shows and changes nothing. *)
Definition pure_on (q : page -> Prop) (a : action) : Prop :=
  forall pg, q pg -> dom_run a pg = (fst (dom_run a (map shape pg)), pg).






End ClosedForm.

(* ------------------------------------------------------------------ *)
(** ** [waitAfterOpenForm] of src/unnamed/part_002 *)

Module Wait.
Import Locators MonadNotations.

(** [/Service provider/i] *)
Definition service_provider (s : string) : bool := Dom.contains_ci s "Service provider".

Definition form_heading : loc := ByRole "heading" (MRegExp service_provider) false.

Section WaitHelpers.
Context {P : Type} `{Browser P}.

Definition waitAfterOpenForm : M unit :=
  waitForStableLoad ;;
  act_ (ExpectVisible form_heading (Some 20000)).

End WaitHelpers.
End Wait.

(* ------------------------------------------------------------------ *)
(** ** The helpers defined in src/tests/e2e.spec.ts

    Most of them are copies of the ones above; these differ. *)

Module E2eSpec.
Import Locators MonadNotations Pdok.

Section Clicks.
Context {P : Type} `{Browser P}.

(** [waitAfterOpenForm] with a 15 s timeout. *)
Definition waitAfterOpenForm : M unit :=
  waitForStableLoad ;;
  act_ (ExpectVisible Wait.form_heading (Some 15000)).

(** [page.getByRole('button', { name: buttonText })] *)
Definition next_button (buttonText : string) : loc :=
  ByRole "button" (MStr buttonText) false.

Definition clickNext (buttonText : string) : M unit :=
  act_ (Click (next_button buttonText) None) ;;
  waitForStableLoad.

(** The second copy of [clickProceed] in the file has the body of [clickNext]. *)
Definition clickProceed (buttonText : string) : M unit :=
  act_ (Click (next_button buttonText) None) ;;
  waitForStableLoad.

End Clicks.

(** [f?.properties?.postcode || f?.properties?.postalcode] *)
Definition feature_postcode (f : json) : option json :=
  js_or (prop (prop (Some f) "properties") "postcode")
        (prop (prop (Some f) "properties") "postalcode").

(** [for (const f of features) { ...; if (pc) return pc; }] *)
Fixpoint scan_features (features : list json) : option json :=
  match features with
  | [] => None
  | f :: features' =>
      let pc := feature_postcode f in
      match pc with
      | Some v => if truthy pc then Some v else scan_features features'
      | None => scan_features features'
      end
  end.

Section GeocodingLookup.
Variable encodeURIComponent : string -> string.
Variable get : string -> response.

Definition geocoding_url (street houseNumber city : string) : string :=
  ("https://geocoding-api.pdok.nl/v3/free?q="
     ++ encodeURIComponent (lookup_query street houseNumber city) ++ "&limit=5")%string.

(** The geocoding variant of [pdokLookupPostalCode]. *)
Definition pdokLookupPostalCode (street houseNumber city : string) : result :=
  let q := lookup_query street houseNumber city in
  let url := geocoding_url street houseNumber city in
  let resp := get url in
  if negb (ok resp) then Failed (HttpFailed (status resp)) else
  match body resp with
  | None => Failed InvalidJson
  | Some data =>
      let features := js_or (prop (Some data) "features") (Some (JArr [])) in
      let iterated :=
        match features with
        | Some (JArr fs) => Some fs
        | Some (JStr s) => Some (chars s)
        | _ => None
        end in
      match iterated with
      | None => Failed NotIterable
      | Some fs =>
          match scan_features fs with
          | Some pc => Found pc
          | None => Failed (NoPostcode q)
          end
      end
  end.
End GeocodingLookup.

(** The elements of [features] when it is an array. *)
Definition candidate_features (r : response) : list json :=
  match body r with
  | Some d =>
      match prop (Some d) "features" with
      | Some (JArr fs) => fs
      | _ => []
      end
  | None => []
  end.

End E2eSpec.

(* ------------------------------------------------------------------ *)
(** ** Further observations used by the statements below *)

Module ExtraObserve.
Import Locators Dom Observe.

(** The nodes [getByRole('heading', { name: /Service provider/i })] may
    resolve to. *)
Definition service_provider_headings (pg : page) : list nat :=
  filter (node_ok pg (fun n => String.eqb (role n) "heading" && negb (ax_hidden n)
                               && contains_ci (name n) "service provider"))
         (seq 0 (List.length pg)).

End ExtraObserve.

(* ================================================================== *)
(** * Proofs *)

(* ------------------------------------------------------------------ *)
(** ** [requireEnv] and [formatDateToDutchLocale] *)

Module JsTextFacts.
Import JsText.

Lemma trim_start_split : forall s, exists pre,
  s = pre ++ trim_start s /\ forallb js_ws pre = true
  /\ (trim_start s = [] \/ exists c r, trim_start s = c :: r /\ js_ws c = false).
Proof.
  induction s as [|c s IH]; simpl.
  - exists []. auto.
  - destruct (js_ws c) eqn:E.
    + destruct IH as [pre [H1 [H2 H3]]].
      exists (c :: pre). simpl. rewrite E, H2. rewrite <- H1. auto.
    + exists []. simpl. split; [reflexivity|]. split; [reflexivity|].
      right. exists c, s. auto.
Qed.

Lemma trim_start_nil_iff : forall s, trim_start s = [] <-> forallb js_ws s = true.
Proof.
  induction s as [|c s IH]; simpl; [tauto|].
  destruct (js_ws c); simpl; [assumption|].
  split; discriminate.
Qed.

Lemma forallb_rev_ws : forall l, forallb js_ws (rev l) = forallb js_ws l.
Proof.
  induction l as [|c l IH]; simpl; [reflexivity|].
  rewrite forallb_app, IH. simpl. rewrite andb_true_r, andb_comm. reflexivity.
Qed.

Lemma trim_nil_iff : forall v, trim v = [] <-> forallb js_ws v = true.
Proof.
  intro v. unfold trim.
  destruct (trim_start_split v) as [pre [Hv [Hpre Hu]]].
  split.
  - intro H. apply (f_equal (@rev Z)) in H. rewrite rev_involutive in H.
    simpl in H. apply trim_start_nil_iff in H. rewrite forallb_rev_ws in H.
    apply trim_start_nil_iff.
    destruct Hu as [Hu | [c [r [Hu Hc]]]]; [exact Hu|].
    rewrite Hu in H. simpl in H. rewrite Hc in H. discriminate.
  - intro H. apply trim_start_nil_iff in H. rewrite H. reflexivity.
Qed.

Lemma trim_shape : forall v, exists pre suf,
  v = pre ++ trim v ++ suf /\ forallb js_ws pre = true /\ forallb js_ws suf = true
  /\ (trim v = [] \/ (js_ws (hd 0 (trim v)) = false /\ js_ws (last (trim v) 0) = false)).
Proof.
  intro v. unfold trim.
  destruct (trim_start_split v) as [pre [Hv [Hpre Hu]]].
  set (u := trim_start v) in *.
  destruct (trim_start_split (rev u)) as [pre2 [Hr [Hpre2 Hw]]].
  set (w := trim_start (rev u)) in *.
  assert (Hu' : u = rev w ++ rev pre2).
  { rewrite <- rev_app_distr, <- Hr, rev_involutive. reflexivity. }
  exists pre, (rev pre2). split; [|split; [exact Hpre|split]].
  - rewrite Hv at 1. rewrite Hu'. reflexivity.
  - rewrite forallb_rev_ws. exact Hpre2.
  - destruct Hw as [Hw | [c [r [Hw Hc]]]].
    + left. rewrite Hw. reflexivity.
    + right. rewrite Hw. simpl. rewrite last_last. split; [|exact Hc].
      destruct Hu as [Hu | [c' [r' [Hu Hc']]]].
      * rewrite Hu' in Hu. rewrite Hw in Hu. simpl in Hu.
        destruct (rev r); discriminate.
      * rewrite Hu' in Hu. rewrite Hw in Hu. simpl in Hu.
        destruct (rev r) as [|x y]; simpl in *; injection Hu as -> _; exact Hc'.
Qed.

(** C9: [requireEnv(name)] throws an error naming the variable exactly when
    the variable is unset, empty or only whitespace (in the sense of
    [String.prototype.trim]); otherwise it returns the value with leading
    and trailing whitespace removed. *)
Theorem requireEnv_trims_or_throws : forall env name,
  requireEnv env name =
    match env name with
    | Some v => if forallb js_ws v then inr (missing_msg name) else inl (trim v)
    | None => inr (missing_msg name)
    end
  /\ missing_msg name = units "Missing required env var: " ++ name
  /\ (forall v, env name = Some v ->
       exists pre suf, v = pre ++ trim v ++ suf
         /\ forallb js_ws pre = true /\ forallb js_ws suf = true
         /\ (trim v = [] \/ (js_ws (hd 0 (trim v)) = false
                              /\ js_ws (last (trim v) 0) = false))).
Proof.
  intros env name. split; [|split; [reflexivity|intros v _; apply trim_shape]].
  unfold requireEnv. destruct (env name) as [v|]; [|reflexivity].
  destruct (forallb js_ws v) eqn:Hall.
  - assert (Ht : trim v = []) by (apply trim_nil_iff; exact Hall).
    rewrite Ht. simpl. destruct v; reflexivity.
  - assert (Ht : trim v <> []) by (intro Ht; apply trim_nil_iff in Ht; congruence).
    destruct v as [|c v']; [discriminate|].
    destruct (trim (c :: v')) as [|x y] eqn:E; [contradiction|].
    reflexivity.
Qed.

Lemma replace_all_dots_map : forall s,
  replace_all_dots s = map (fun c => if c =? dot then dash else c) s.
Proof. induction s as [|c s IH]; simpl; [reflexivity|]. rewrite IH. reflexivity. Qed.

(** C10: [formatDateToDutchLocale(s)] replaces every [.] of [s] by [-]
    (whatever the shape of [s]); it is idempotent and the identity on
    strings without [.]. *)
Theorem formatDate_replaces_every_dot : forall s,
  formatDateToDutchLocale s = map (fun c => if c =? dot then dash else c) s
  /\ formatDateToDutchLocale (formatDateToDutchLocale s) = formatDateToDutchLocale s
  /\ (~ In dot s -> formatDateToDutchLocale s = s).
Proof.
  intro s. unfold formatDateToDutchLocale. rewrite !replace_all_dots_map.
  split; [reflexivity|split].
  - rewrite replace_all_dots_map, map_map. apply map_ext. intro c.
    destruct (c =? dot) eqn:E; simpl; [reflexivity|rewrite E; reflexivity].
  - intro H. rewrite <- (map_id s) at 2. apply map_ext_in. intros c Hc.
    destruct (c =? dot) eqn:E; [|reflexivity].
    apply Z.eqb_eq in E. subst c. contradiction.
Qed.

End JsTextFacts.

(* ------------------------------------------------------------------ *)
(** ** [pdokLookupPostalCode] *)

Module PdokFacts.
Import Pdok.

Lemma truthy_js_or : forall a b, truthy (js_or a b) = truthy a || truthy b.
Proof. intros a b. unfold js_or. destruct (truthy a) eqn:E; simpl; congruence. Qed.

Lemma doc_postcode_truthy : forall d, truthy (doc_postcode d) = carries_postcode d.
Proof.
  intro d. unfold doc_postcode, carries_postcode.
  rewrite !truthy_js_or, orb_assoc. reflexivity.
Qed.

Lemma scan_docs_none : forall ds,
  scan_docs ds = None <-> forallb (fun d => negb (carries_postcode d)) ds = true.
Proof.
  induction ds as [|d ds IH]; simpl; [tauto|].
  rewrite <- doc_postcode_truthy.
  destruct (doc_postcode d) as [v|] eqn:E.
  - destruct (truthy (Some v)); simpl; [split; intro H; discriminate H|exact IH].
  - exact IH.
Qed.

Lemma scan_docs_some : forall ds v, scan_docs ds = Some v ->
  exists d, In d ds /\ doc_postcode d = Some v /\ truthy (Some v) = true.
Proof.
  induction ds as [|d ds IH]; simpl; [discriminate|]. intros v H.
  destruct (doc_postcode d) as [w|] eqn:E.
  - destruct (truthy (Some w)) eqn:T.
    + injection H as <-. exists d. auto.
    + destruct (IH v H) as [d' [H1 H2]]. exists d'. auto.
  - destruct (IH v H) as [d' [H1 H2]]. exists d'. auto.
Qed.

Lemma scan_docs_chars : forall s, scan_docs (chars s) = None.
Proof.
  intro s. unfold chars. induction (list_ascii_of_string s); simpl; auto.
Qed.

(** C6: the lookup fails exactly when the response status is not a success
    or no candidate document carries a postal code under [postcode],
    [postalcode] or [pc6]; otherwise it returns the postal code of a
    candidate document; on the stub response of the end-to-end scenario it
    returns "1017GB". *)
Theorem pdok_lookup_fails_iff_no_postcode :
  forall (enc : string -> string) (get : string -> response) street houseNumber city,
  let resp := get (lookup_url enc street houseNumber city) in
  ((exists e, pdokLookupPostalCode enc get street houseNumber city = Failed e)
     <-> ok resp = false
         \/ forallb (fun d => negb (carries_postcode d)) (candidate_docs resp) = true)
  /\ (forall v, pdokLookupPostalCode enc get street houseNumber city = Found v ->
        exists doc, In doc (candidate_docs resp) /\ doc_postcode doc = Some v
                    /\ truthy (Some v) = true)
  /\ pdokLookupPostalCode enc (fun _ => pdok_stub) "Kerkstraat" "12" "Amsterdam"
     = Found (JStr "1017GB").
Proof.
  intros enc get street houseNumber city resp.
  split; [|split; [|reflexivity]].
  - unfold pdokLookupPostalCode, candidate_docs. fold resp.
    destruct (ok resp) eqn:Hok.
    2:{ simpl. split; [intros _; left; reflexivity|intros _; eexists; reflexivity]. }
    destruct (body resp) as [d|].
    2:{ simpl. split; [intros _; right; reflexivity|intros _; eexists; reflexivity]. }
    destruct (prop (prop (Some d) "response") "docs") as [j|].
    2:{ simpl. split; [intros _; right; reflexivity|intros _; eexists; reflexivity]. }
    destruct j as [|b|n|s|xs|fs]; unfold js_or, truthy; simpl;
      try (destruct b); try (destruct (n =? 0)); try (destruct (String.eqb s ""));
      simpl; try rewrite scan_docs_chars;
      try (split; [intros _; right; reflexivity|intros _; eexists; reflexivity]).
    rewrite <- scan_docs_none.
    destruct (scan_docs xs); split.
    + intros [e H]; discriminate.
    + intros [H|H]; discriminate.
    + intros _; right; reflexivity.
    + intros _; eexists; reflexivity.
  - intros v. unfold pdokLookupPostalCode, candidate_docs. fold resp.
    destruct (ok resp); [|discriminate].
    destruct (body resp) as [d|]; [|discriminate].
    destruct (prop (prop (Some d) "response") "docs") as [j|]; simpl; [|discriminate].
    destruct j as [|b|n|s|xs|fs]; unfold js_or, truthy; simpl;
      try (destruct b); try (destruct (n =? 0)); try (destruct (String.eqb s ""));
      simpl; try rewrite scan_docs_chars; try discriminate.
    destruct (scan_docs xs) as [w|] eqn:E; [|discriminate].
    intro H. injection H as <-. apply scan_docs_some. exact E.
Qed.

End PdokFacts.

(* ------------------------------------------------------------------ *)
(** ** The helpers over any browser *)

Module LocatorFacts.
Import Locators MonadNotations Observe.

Ltac unfold_m :=
  unfold clickProceed, waitForStableLoad, selectMatOption, act_, act, bind, ret,
         try_catch, throw, console_log in *; simpl in *.

Ltac split_run :=
  match goal with
  | |- context [run ?a ?p] =>
      let E := fresh "E" in destruct (run a p) as [[?r|] ?q] eqn:E
  end.

Section Generic.
Context {P : Type} `{B : Browser P}.

(** C2 (amended): each helper tries its own fixed, ordered chain of
    strategies: two for a text field, three for a select, three for a radio
    group, four for a checkbox.  A strategy's block covers both resolution
    and action; the helper commits to the first block that resolves (the
    later ones are then never run) and a block that rejects hands over to
    the next one from the page it left. *)
Theorem strategy_chains : forall (t v o : string) (m : matcher),
  @fillTextByLabel P _ t v = chain [fill_by_label t v] (fill_by_raw_dom t v)
  /\ @selectMatOptionByLabel P _ t o
     = chain [select_by_label t o; select_by_component t o] (select_by_raw_dom t o)
  /\ @setRadioByLabel P _ m o
     = chain [radio_by_role m o; radio_by_component m o] (radio_by_option_label o)
  /\ @setCheckboxByLabel P _ m
     = chain [checkbox_by_role m; checkbox_by_label m; checkbox_by_component m]
             (checkbox_by_raw_dom m)
  /\ (forall (s : @M P unit) ss last st st',
        s st = (Some tt, st') -> chain (s :: ss) last st = (Some tt, st'))
  /\ (forall (s : @M P unit) ss last st st',
        s st = (None, st') -> chain (s :: ss) last st = chain ss last st').
Proof.
  intros t v o m.
  split; [reflexivity|split; [reflexivity|split; [reflexivity|split; [reflexivity|]]]].
  split.
  - intros s ss last st st' H. simpl. unfold try_catch. rewrite H. reflexivity.
  - intros s ss last st st' H. simpl. unfold try_catch. rewrite H. reflexivity.
Qed.

(** C5: [clickProceed] acts on the last button whose accessible name
    matches; it rejects without clicking when the button is not visible, or
    not enabled, within 10 s; on a normal return it asserted both, scrolled,
    clicked (with the DOM [click()] as fallback when the click rejects) and
    then waited for a stable load. *)
Theorem clickProceed_waits_then_clicks :
  forall (buttonText : string) (p : P) (tr : list action),
  let b := proceed_button buttonText in
  let ev := ExpectVisible b (Some 10000) in
  let ee := ExpectEnabled b (Some 10000) in
  (fst (run ev p) = None ->
     clickProceed buttonText (p, tr) = (None, (snd (run ev p), tr ++ [ev])))
  /\ (forall r1 p1, run ev p = (Some r1, p1) -> fst (run ee p1) = None ->
     clickProceed buttonText (p, tr) = (None, (snd (run ee p1), tr ++ [ev; ee])))
  /\ (forall p' tr', clickProceed buttonText (p, tr) = (Some tt, (p', tr')) ->
     exists fb, tr' = tr ++ [ev; ee; ScrollIntoViewIfNeeded b; Click b (Some 10000)] ++ fb
                        ++ [WaitForLoadState "networkidle"; WaitForTimeout 250]
        /\ (fb = [] \/ fb = [ConsoleLog (fallback_msg buttonText); EvaluateClick b]))
  /\ (forall r1 p1 r2 p2 r3 p3 p4,
        run ev p = (Some r1, p1) -> run ee p1 = (Some r2, p2) ->
        run (ScrollIntoViewIfNeeded b) p2 = (Some r3, p3) ->
        run (Click b (Some 10000)) p3 = (None, p4) ->
        exists rest, snd (snd (clickProceed buttonText (p, tr)))
          = tr ++ [ev; ee; ScrollIntoViewIfNeeded b; Click b (Some 10000);
                   ConsoleLog (fallback_msg buttonText); EvaluateClick b] ++ rest).
Proof.
  intros buttonText p tr b ev ee. subst b ev ee.
  split; [|split; [|split]].
  - intro H. unfold_m. destruct (run _ p) as [[r|] q]; simpl in *; [discriminate|reflexivity].
  - intros r1 p1 H1 H2. unfold_m. rewrite H1. simpl.
    destruct (run _ p1) as [[r|] q]; simpl in *; [discriminate|].
    rewrite <- app_assoc. reflexivity.
  - intros p' tr' H. revert H. unfold_m.
    repeat (split_run; simpl); intro H; try discriminate;
      injection H as <- <-.
    + exists []. split; [rewrite <- !app_assoc; reflexivity|left; reflexivity].
    + exists [ConsoleLog (fallback_msg buttonText);
              EvaluateClick (proceed_button buttonText)].
      split; [rewrite <- !app_assoc; reflexivity|right; reflexivity].
  - intros r1 p1 r2 p2 r3 p3 p4 H1 H2 H3 H4. unfold_m.
    rewrite H1; simpl. rewrite H2; simpl. rewrite H3; simpl. rewrite H4; simpl.
    repeat (split_run; simpl).
    all: eexists; rewrite <- ?app_assoc; simpl; reflexivity.
Qed.

End Generic.

End LocatorFacts.

(* ------------------------------------------------------------------ *)
(** ** Runs on DOM pages *)

Module DomFacts.
Import Locators MonadNotations Observe Dom Pages ClosedForm.

Lemma nth_error_update : forall pg i j f,
  nth_error (update pg i f) j
  = if Nat.eqb i j then option_map f (nth_error pg j) else nth_error pg j.
Proof.
  induction pg as [|n pg IH]; intros i j f.
  - destruct i, j; simpl;
      repeat match goal with |- context [if ?b then _ else _] => destruct b end;
      reflexivity.
  - destruct i as [|i], j as [|j]; simpl; try reflexivity.
    rewrite IH. reflexivity.
Qed.

Lemma length_update : forall pg i f, List.length (update pg i f) = List.length pg.
Proof.
  induction pg as [|n pg IH]; intros [|i] f; simpl; try rewrite IH; reflexivity.
Qed.

Lemma map_shape_update : forall pg i w,
  map shape (update pg i (set_value w)) = map shape pg.
Proof.
  induction pg as [|n pg IH]; intros [|i] w; simpl; try rewrite IH; reflexivity.
Qed.

Lemma map_shape_writes : forall ws pg, map shape (writes pg ws) = map shape pg.
Proof.
  induction ws as [|[i w] ws IH]; intro pg; [reflexivity|].
  exact (eq_trans (IH (update pg i (set_value w))) (map_shape_update pg i w)).
Qed.

Lemma node_ok_shape : forall pg p i,
  (forall n, p (shape n) = p n) -> node_ok (map shape pg) p i = node_ok pg p i.
Proof.
  intros pg p i Hp. unfold node_ok. rewrite nth_error_map.
  destruct (nth_error pg i); simpl; auto.
Qed.

Lemma has_ancestor_shape : forall f pg i r,
  has_ancestor f (map shape pg) i r = has_ancestor f pg i r.
Proof.
  induction f as [|f IH]; intros pg i r; simpl; [reflexivity|].
  rewrite nth_error_map. destruct (nth_error pg i) as [n|]; simpl; [|reflexivity].
  destruct (parent n); [rewrite IH|]; reflexivity.
Qed.

Lemma is_desc_shape : forall pg i r, is_desc (map shape pg) i r = is_desc pg i r.
Proof.
  intros. unfold is_desc. rewrite length_map. apply has_ancestor_shape.
Qed.

Lemma parent_of_shape : forall pg r, parent_of (map shape pg) r = parent_of pg r.
Proof.
  intros. unfold parent_of. rewrite nth_error_map.
  destruct (nth_error pg r); reflexivity.
Qed.

Lemma filter_congr {A} (f g : A -> bool) (l l' : list A) :
  (forall x, f x = g x) -> l = l' -> filter f l = filter g l'.
Proof. intros H <-. apply filter_ext, H. Qed.

Lemma existsb_congr {A} (f g : A -> bool) (l : list A) :
  (forall x, f x = g x) -> existsb f l = existsb g l.
Proof. intro H. induction l as [|x l IH]; simpl; [|rewrite H, IH]; reflexivity. Qed.

Ltac cands_shape :=
  match goal with
  | sc : option (list nat) |- _ =>
      destruct sc;
      [apply filter_congr; [intro; apply existsb_congr; intro; apply is_desc_shape|]|];
      rewrite length_map; reflexivity
  end.

Lemma eval_shape : forall l pg sc, eval (map shape pg) sc l = eval pg sc l.
Proof.
  induction l as [r m ex|m ex|t|tg m|tg h IH|s|c|t| | | |a IHa b IHb|l IH|l IH];
    intros pg sc; cbn [eval].
  all: try (apply filter_congr; [intro; apply node_ok_shape; reflexivity|cands_shape]).
  - apply filter_congr; [|cands_shape].
    intro i. rewrite node_ok_shape by reflexivity. rewrite IH. reflexivity.
  - destruct sc as [rs|]; [|reflexivity].
    apply flat_map_ext. intro. apply parent_of_shape.
  - rewrite IHa, IHb. reflexivity.
  - rewrite IH. reflexivity.
  - rewrite IH. reflexivity.
Qed.

Lemma the_one_shape : forall pg l, the_one (map shape pg) l = the_one pg l.
Proof. intros. unfold the_one. rewrite eval_shape. reflexivity. Qed.

Lemma the_one_writes : forall ws pg l, the_one (writes pg ws) l = the_one pg l.
Proof.
  intros. rewrite <- the_one_shape, map_shape_writes, the_one_shape. reflexivity.
Qed.

Ltac step_m :=
  match goal with
  | |- context [run ?a ?p] =>
      let E := fresh "E" in destruct (run a p) as [[?r|] ?q] eqn:E
  | |- context [setInputValue ?l ?v ?s] =>
      let E := fresh "E" in destruct (setInputValue l v s) as [[[]|] [?q ?tq]] eqn:E
  | |- context [match ?r with RDone => _ | RStr _ => _ | RNull => _ end] => destruct r
  | |- context [if ?b then _ else _] => let E := fresh "B" in destruct b eqn:E
  end.

Section AnyBrowser.
Context {P : Type} `{Browser P}.

Lemma setInputValue_run : forall l v p tr x p' tr',
  setInputValue l v (p, tr) = (Some x, (p', tr')) ->
  exists r1 p1 r2 p2 cur p3 p4 r5 p5,
    run (Click l (Some 1000)) p = (Some r1, p1)
    /\ run (Fill l v) p1 = (Some r2, p2)
    /\ run (InputValue l) p2 = (Some (RStr cur), p3)
    /\ (if String.eqb cur v then p4 = p3
        else exists r3 p3' r4, run (Fill l "") p3 = (Some r3, p3')
                               /\ run (PressSequentially l v) p3' = (Some r4, p4))
    /\ run (ExpectValue l v) p4 = (Some r5, p5)
    /\ p' = snd (run (Press l "Tab") p5)
    /\ tr' = tr ++ [Click l (Some 1000); Fill l v; InputValue l]
             ++ (if String.eqb cur v then [] else [Fill l ""; PressSequentially l v])
             ++ [ExpectValue l v; Press l "Tab"].
Proof.
  intros l v p tr x p' tr'.
  unfold setInputValue, inputValue, act_, act, bind, ret, try_catch, throw; simpl.
  repeat (step_m; simpl).
  all: intro Hr; try discriminate.
  all: injection Hr as _ <- <-.
  all: do 9 eexists; split; [reflexivity|split; [eassumption|split; [eassumption|]]].
  all: match goal with B : negb (String.eqb ?a ?b) = _ |- _ =>
         destruct (String.eqb a b); try discriminate B end.
  all: split; [first [reflexivity | do 3 eexists; split; eassumption]|].
  all: split; [eassumption|split].
  all: try (match goal with E : run (Press _ _) _ = _ |- _ => rewrite E end; reflexivity).
  all: repeat rewrite <- app_assoc; reflexivity.
Qed.

Lemma setInputValue_outcome : forall l v st r p' tr',
  setInputValue l v st = (r, (p', tr')) ->
  (r = Some tt <-> exists pre, tr' = pre ++ [ExpectValue l v; Press l "Tab"]).
Proof.
  intros l v [p tr] r p' tr'.
  unfold setInputValue, inputValue, act_, act, bind, ret, try_catch, throw; simpl.
  repeat (step_m; simpl).
  all: intro Hr; injection Hr as <- _ <-.
  all: split; [first [discriminate | intros _; eexists; rewrite <- app_assoc; reflexivity]
              |first [reflexivity
                     |intros [pre Hpre]; apply (f_equal (@rev action)) in Hpre;
                      rewrite !rev_app_distr in Hpre; simpl in Hpre; discriminate Hpre]].
Qed.

Lemma fillTextByLabel_strategy : forall t v p tr x p' tr',
  fillTextByLabel t v (p, tr) = (Some x, (p', tr')) ->
  exists l p0 tr0 r0 p1,
    ((l = ByLabel (MStr t) true /\ p0 = p /\ tr0 = tr)
     \/ (exists f pA trA rw pw ra, l = raw_input t f
         /\ fill_by_label t v (p, tr) = (None, (pA, trA))
         /\ run (WaitForVisible (raw_label t) 1000) pA = (Some rw, pw)
         /\ run (GetAttribute (raw_label t) "for") pw = (Some ra, p0)
         /\ f = match ra with RStr s => Some s | _ => None end
         /\ tr0 = trA ++ [WaitForVisible (raw_label t) 1000; GetAttribute (raw_label t) "for"]))
    /\ run (ExpectVisible l (Some 1000)) p0 = (Some r0, p1)
    /\ setInputValue l v (p1, tr0 ++ [ExpectVisible l (Some 1000)]) = (Some x, (p', tr')).
Proof.
  intros t v p tr x p' tr'. unfold fillTextByLabel, try_catch.
  destruct (fill_by_label t v (p, tr)) as [[u|] [pA trA]] eqn:E1.
  - intro Hr. injection Hr as -> -> ->. revert E1.
    unfold fill_by_label, act_, act, bind, ret; simpl.
    destruct (run (ExpectVisible (ByLabel (MStr t) true) (Some 1000)) p) as [[r0|] p1] eqn:Ev;
      simpl; [|discriminate].
    intro Hs. exists (ByLabel (MStr t) true), p, tr, r0, p1.
    split; [left; auto|split; [exact Ev|exact Hs]].
  - unfold fill_by_raw_dom, getAttribute, act_, act, bind, ret, throw; simpl.
    destruct (run (WaitForVisible (raw_label t) 1000) pA) as [[rw|] pw] eqn:Ew;
      simpl; [|discriminate].
    destruct (run (GetAttribute (raw_label t) "for") pw) as [[ra|] p0] eqn:Eg;
      simpl; [|discriminate].
    destruct ra as [|s|]; simpl; [discriminate| |].
    1: pose (f := Some s). 2: pose (f := @None string).
    all: match goal with |- context [run (ExpectVisible ?l ?o) ?pg] =>
           destruct (run (ExpectVisible l o) pg) as [[r0|] p1] eqn:Ev; simpl; [|discriminate] end.
    all: intro Hs.
    all: exists (raw_input t f), p0,
           ((trA ++ [WaitForVisible (raw_label t) 1000]) ++ [GetAttribute (raw_label t) "for"]),
           r0, p1.
    all: split; [|split; [exact Ev|exact Hs]].
    all: right; exists f, pA, trA, rw, pw; eexists; split; [reflexivity|].
    all: split; [first [exact E1|reflexivity]|split; [exact Ew|split; [exact Eg|split; [reflexivity|]]]].
    all: rewrite <- app_assoc; reflexivity.
Qed.

End AnyBrowser.

Lemma dom_expect_value : forall l v pg r pg1,
  dom_run (ExpectValue l v) pg = (Some r, pg1) ->
  pg1 = pg /\ exists i n, the_one pg l = Some i /\ nth_error pg i = Some n
                        /\ editable n = true /\ value n = v.
Proof.
  intros l v pg r pg1 He. unfold dom_run, on_one, when in He.
  destruct (the_one pg l) as [i|] eqn:Ei; [|discriminate].
  destruct (nth_error pg i) as [n|] eqn:En; [|discriminate].
  destruct (editable n) eqn:Ed; simpl in He; [|discriminate].
  destruct (String.eqb (value n) v) eqn:Ev; [|discriminate].
  injection He as _ <-. split; [reflexivity|].
  exists i, n. apply String.eqb_eq in Ev. auto.
Qed.

Lemma dom_read_keeps : forall a pg r pg',
  match a with
  | ExpectVisible _ _ | WaitForVisible _ _ | GetAttribute _ _ | InputValue _
  | ExpectValue _ _ => True
  | _ => False
  end -> dom_run a pg = (r, pg') -> pg' = pg.
Proof.
  intros [] pg r pg' Ha; try contradiction; unfold dom_run, on_one, when.
  all: destruct (the_one pg _); [destruct (nth_error pg _)|].
  all: repeat match goal with |- context [if ?b then _ else _] => destruct b end.
  all: intro E; injection E as _ <-; reflexivity.
Qed.

(** C1 (amended): when [fillTextByLabel] returns normally, it committed to
    one field, reached through the exact label or, after that block
    rejected, through the raw-DOM label.  On the field it asserted
    visibility, clicked, filled, read the value back and, only when the
    value read back differs from [value], cleared it and typed [value] key
    by key; it then asserted that the field holds exactly [value] and
    pressed Tab.  The value left on return is the one the field keeps when
    the focus leaves it, which is [value] only for a field that does not
    rewrite it on blur.  For every browser, [setInputValue] returns
    normally exactly when its calls end with the value assertion followed
    by Tab: a failed assertion makes it reject, and the trailing Tab never
    does. *)
Theorem fillTextByLabel_asserts_then_blurs : forall t v pg tr pg' tr',
  fillTextByLabel t v (pg, tr) = (Some tt, (pg', tr')) ->
  (exists l p1 tr0 p2 cur pg0 i n,
     ((l = ByLabel (MStr t) true /\ p1 = pg /\ tr0 = tr)
      \/ (exists f trA, l = raw_input t f
          /\ fill_by_label t v (pg, tr) = (None, (p1, trA))
          /\ tr0 = trA ++ [WaitForVisible (raw_label t) 1000; GetAttribute (raw_label t) "for"]))
     /\ p2 = snd (run (Fill l v) (snd (run (Click l (Some 1000)) p1)))
     /\ run (InputValue l) p2 = (Some (RStr cur), p2)
     /\ pg0 = (if String.eqb cur v then p2
               else snd (run (PressSequentially l v) (snd (run (Fill l "") p2))))
     /\ tr' = tr0 ++ [ExpectVisible l (Some 1000); Click l (Some 1000); Fill l v; InputValue l]
              ++ (if String.eqb cur v then [] else [Fill l ""; PressSequentially l v])
              ++ [ExpectValue l v; Press l "Tab"]
     /\ the_one pg0 l = Some i /\ nth_error pg0 i = Some n
     /\ editable n = true /\ value n = v
     /\ pg' = update pg0 i (set_value (on_blur n v))
     /\ option_map value (nth_error pg' i) = Some (on_blur n v))
  /\ (forall (P : Type) (B : Browser P) (l : loc) (st : @state P) r p'' tr'',
        setInputValue l v st = (r, (p'', tr'')) ->
        (r = Some tt <-> exists pre, tr'' = pre ++ [ExpectValue l v; Press l "Tab"])).
Proof.
  intros t v pg tr pg' tr' H. split.
  - apply fillTextByLabel_strategy in H as (l & p0 & tr0 & r0 & p1 & Hcase & Hev & Hs).
    apply dom_read_keeps in Hev; [subst p1|exact I].
    apply setInputValue_run in Hs
      as (r1 & pc & r2 & p2 & cur & p3 & p4 & r5 & p5 & Hc & Hf & Hi & Hre & He & Hp & Ht).
    pose proof Hi as Hi'. apply dom_read_keeps in Hi'; [subst p3|exact I].
    change (run (ExpectValue l v) p4) with (dom_run (ExpectValue l v) p4) in He.
    apply dom_expect_value in He as (-> & i & n & Ei & En & Ed & Ev).
    exists l, p0, tr0, p2, cur, p4, i, n.
    split; [|split; [|split; [exact Hi|split; [|split; [|split; [exact Ei|split; [exact En|]]]]]]].
    + destruct Hcase as [Hl|(f & pA & trA & rw & pw & ra & Hl & E1 & Ew & Eg & _ & Htr)];
        [left; exact Hl|right].
      apply dom_read_keeps in Ew; [subst pw|exact I].
      apply dom_read_keeps in Eg; [subst p0|exact I].
      exists f, trA. auto.
    + rewrite Hc. cbn [snd]. rewrite Hf. reflexivity.
    + destruct (String.eqb cur v); [exact Hre|].
      destruct Hre as (r3 & p3' & r4 & E3 & E4). rewrite E3. cbn [snd]. rewrite E4. reflexivity.
    + rewrite Ht, <- app_assoc. reflexivity.
    + assert (Hpg : pg' = update p4 i (set_value (on_blur n v))).
      { rewrite Hp. change (snd (dom_run (Press l "Tab") p4) = update p4 i (set_value (on_blur n v))).
        unfold dom_run, on_one. rewrite Ei, En, Ed, Ev. reflexivity. }
      repeat split; auto.
      rewrite Hpg, nth_error_update, Nat.eqb_refl, En. reflexivity.
  - intros P B l st r p'' tr''. apply setInputValue_outcome.
Qed.

Lemma fillTextByLabel_asserts_then_blurs_witness :
  let r := exec (fillTextByLabel "Posting start date" "01-02-2025") date_page in
  fst r = Some tt
  /\ exists l p1 tr0 p2 cur pg0 i n,
     ((l = ByLabel (MStr "Posting start date") true /\ p1 = date_page /\ tr0 = [])
      \/ (exists f trA, l = raw_input "Posting start date" f
          /\ fill_by_label "Posting start date" "01-02-2025" (date_page, []) = (None, (p1, trA))
          /\ tr0 = trA ++ [WaitForVisible (raw_label "Posting start date") 1000;
                           GetAttribute (raw_label "Posting start date") "for"]))
     /\ p2 = snd (run (Fill l "01-02-2025") (snd (run (Click l (Some 1000)) p1)))
     /\ run (InputValue l) p2 = (Some (RStr cur), p2)
     /\ pg0 = (if String.eqb cur "01-02-2025" then p2
               else snd (run (PressSequentially l "01-02-2025") (snd (run (Fill l "") p2))))
     /\ snd (snd r)
        = tr0 ++ [ExpectVisible l (Some 1000); Click l (Some 1000); Fill l "01-02-2025";
                  InputValue l]
          ++ (if String.eqb cur "01-02-2025" then []
              else [Fill l ""; PressSequentially l "01-02-2025"])
          ++ [ExpectValue l "01-02-2025"; Press l "Tab"]
     /\ the_one pg0 l = Some i /\ nth_error pg0 i = Some n
     /\ editable n = true /\ value n = "01-02-2025"%string
     /\ fst (snd r) = update pg0 i (set_value (on_blur n "01-02-2025"))
     /\ option_map value (nth_error (fst (snd r)) i) = Some (on_blur n "01-02-2025").
Proof.
  intro r. split; [vm_compute; reflexivity|].
  apply (proj1 (fillTextByLabel_asserts_then_blurs "Posting start date" "01-02-2025"
                  date_page [] (fst (snd r)) (snd (snd r)) ltac:(vm_compute; reflexivity))).
Defined.

(** Counterexample to C1: a date field that rewrites its value as
    DD/MM/YYYY on blur; [fillTextByLabel] returns normally and the field
    holds 01/02/2025, not the value 01-02-2025 it was given. *)
Lemma fill_returns_with_blurred_value :
  fst (exec (fillTextByLabel "Posting start date" "01-02-2025") date_page) = Some tt
  /\ values (fst (snd (exec (fillTextByLabel "Posting start date" "01-02-2025") date_page)))
     = [""; ""; "01/02/2025"]%string
  /\ "01/02/2025"%string <> "01-02-2025"%string.
Proof. split; [|split]; [vm_compute; reflexivity|vm_compute; reflexivity|discriminate]. Qed.


















Lemma toggle_inert : forall pg j,
  node_ok pg (fun m => negb (checkable m)) j = true -> toggle pg j = pg.
Proof.
  intros pg j H. unfold node_ok in H. unfold toggle.
  destruct (nth_error pg j) as [m|]; [|reflexivity].
  destruct (checkable m); [discriminate|reflexivity].
Qed.

Lemma activate_inert : forall pg i, click_inert pg i = true -> activate pg i = pg.
Proof.
  intros pg i H. unfold click_inert in H. unfold activate.
  destruct (nth_error pg i) as [n|] eqn:En; [|reflexivity].
  destruct (reveals n); [|discriminate]. cbn [fold_left].
  destruct (is_tag "label" n).
  - destruct (label_control pg i n); [apply toggle_inert, H|reflexivity].
  - apply toggle_inert. unfold node_ok. rewrite En. exact H.
Qed.

Ltac pure_tac :=
  let pg := fresh "pg" in let Hs := fresh "Hs" in
  let i := fresh "i" in let n := fresh "n" in let Ei := fresh "Ei" in
  intros pg Hs; unfold dom_run, on_one; rewrite the_one_shape;
  destruct (the_one pg _) as [i|] eqn:Ei; [|reflexivity];
  rewrite nth_error_map; destruct (nth_error pg i) as [n|]; simpl; [|reflexivity].

Lemma pure_click : forall (q : page -> Prop) l t,
  (forall pg, q pg -> quiet pg l = true) -> pure_on q (Click l t).
Proof.
  intros q l t Hq. pure_tac.
  destruct (visible n && enabled n); [|reflexivity].
  rewrite activate_inert; [reflexivity|].
  specialize (Hq pg Hs). unfold quiet in Hq. rewrite Ei in Hq. exact Hq.
Qed.



















Lemma the_one_raw_label : forall pg t,
  the_one pg (raw_label t) = hd_error (labels_containing pg t).
Proof.
  intros pg t. unfold the_one, raw_label, labels_containing. simpl.
  destruct (filter _ _) as [|i [|j l]]; reflexivity.
Qed.

(** C8 (amended): the raw-DOM block of [fillTextByLabel] runs exactly when
    the exact-label block rejected.  Its label is the first label of the
    page, in document order, whose text contains the label text, visible
    or not; it rejects unless that label is visible within 1 s.  A
    non-empty [for] attribute designates the element with that id;
    otherwise the target is the first input or textarea under the label's
    parent.  The target must be visible within 1 s, and [setInputValue]
    then runs on it. *)
Theorem fill_by_raw_dom_first_label : forall t v pg tr,
  (forall st, fill_by_label t v (pg, tr) = (None, st) ->
              fillTextByLabel t v (pg, tr) = fill_by_raw_dom t v st)
  /\ the_one pg (raw_label t) = hd_error (labels_containing pg t)
  /\ (forall f, f <> ""%string ->
        eval pg None (raw_input t (Some f))
        = filter (node_ok pg (fun n => String.eqb (id n) f)) (seq 0 (List.length pg)))
  /\ raw_input t (Some ""%string) = raw_input t None
  /\ (forall i, hd_error (labels_containing pg t) = Some i ->
        eval pg None (raw_input t None)
        = firstn 1 (filter (node_ok pg (fun n => is_tag "input" n || is_tag "textarea" n))
                      (filter (fun j => existsb (is_desc pg j) (parent_of pg i))
                              (seq 0 (List.length pg)))))
  /\ fill_by_raw_dom t v (pg, tr)
     = let w := tr ++ [WaitForVisible (raw_label t) 1000] in
       match hd_error (labels_containing pg t) with
       | Some i =>
           match nth_error pg i with
           | Some lb =>
               if visible lb then
                 let input := raw_input t (for_attr lb) in
                 let tr1 := w ++ [GetAttribute (raw_label t) "for";
                                  ExpectVisible input (Some 1000)] in
                 match the_one pg input with
                 | Some j =>
                     match nth_error pg j with
                     | Some n => if visible n then setInputValue input v (pg, tr1)
                                 else (None, (pg, tr1))
                     | None => (None, (pg, tr1))
                     end
                 | None => (None, (pg, tr1))
                 end
               else (None, (pg, w))
           | None => (None, (pg, w))
           end
       | None => (None, (pg, w))
       end.
Proof.
  intros t v pg tr. split; [|split; [|split; [|split; [|split]]]].
  - intros st H. unfold fillTextByLabel, try_catch. rewrite H. reflexivity.
  - apply the_one_raw_label.
  - intros f Hf. unfold raw_input, if_truthy.
    destruct (String.eqb f "") eqn:E; [apply String.eqb_eq in E; contradiction|].
    reflexivity.
  - reflexivity.
  - intros i Hi. unfold raw_input, if_truthy. cbn [eval].
    unfold labels_containing in Hi. simpl.
    destruct (filter (node_ok pg (fun n => is_tag "label" n && contains_ci (text n) t))
                     (seq 0 (List.length pg))) as [|i' l];
      [discriminate|].
    injection Hi as <-. simpl. rewrite app_nil_r. reflexivity.
  - unfold fill_by_raw_dom, getAttribute, act_, act, bind, ret, throw. cbn [fst snd].
    unfold run, dom_browser. unfold dom_run at 1, on_one at 1.
    rewrite the_one_raw_label. cbv zeta.
    destruct (hd_error (labels_containing pg t)) as [i|] eqn:Ei; [|reflexivity].
    destruct (nth_error pg i) as [lb|] eqn:Elb; [|reflexivity].
    unfold when. destruct (visible lb) eqn:Ev; [|reflexivity].
    cbn -[dom_run setInputValue raw_input the_one].
    unfold dom_run at 1, on_one at 1. rewrite the_one_raw_label, Ei, Elb.
    cbn -[dom_run setInputValue raw_input the_one].
    destruct (for_attr lb) as [f|];
      cbn -[dom_run setInputValue raw_input the_one];
      unfold dom_run at 1, on_one at 1;
      (destruct (the_one pg _) as [j|]; [|rewrite <- !app_assoc; reflexivity]);
      (destruct (nth_error pg j) as [n|]; [|rewrite <- !app_assoc; reflexivity]);
      unfold when; (destruct (visible n); rewrite <- !app_assoc; reflexivity).
Qed.

(** Counterexample to C8: a hidden label "Email address" comes before the
    visible label "Email address *" of the field.  The first visible label
    designates the visible input 4, but the raw-DOM block takes the first
    label, which stays hidden, and [fillTextByLabel] rejects with the page
    unchanged. *)
Lemma raw_dom_takes_hidden_first_label :
  claimed_raw_target hidden_label_page "Email address" = Some 4%nat
  /\ node_ok hidden_label_page visible 4 = true
  /\ fst (exec (fillTextByLabel "Email address" "a@b.nl") hidden_label_page) = None
  /\ values (fst (snd (exec (fillTextByLabel "Email address" "a@b.nl") hidden_label_page)))
     = values hidden_label_page.
Proof. repeat split; vm_compute; reflexivity. Qed.

(** Counterexample to C2: for a text field the chain has two blocks, the
    exact label and the raw DOM.  On a field whose label does not name it,
    the first block rejects and the raw-DOM block fills the field; no
    component-library call is ever made. *)
Lemma text_field_chain_skips_component_library :
  let r := exec (fillTextByLabel "Email address" "a@b.nl") raw_page in
  fst r = Some tt
  /\ existsb component_call (snd (snd r)) = false
  /\ firstn 2 (snd (snd r))
     = [ExpectVisible (ByLabel (MStr "Email address") true) (Some 1000);
        WaitForVisible (raw_label "Email address") 1000]
  /\ values (fst (snd r)) = [""; ""; "a@b.nl"]%string.
Proof. repeat split; vm_compute; reflexivity. Qed.

(** C3: the component-library block of [setCheckboxByLabel] clicks the
    label of a [bq-checkbox], which toggles the checkbox.  A checkbox that
    is already checked, whose native input the role and exact-label blocks
    cannot reach, is left unchecked by a call that returns normally. *)
Theorem setCheckbox_component_click_unchecks :
  let r := exec (setCheckboxByLabel (MStr "I accept the terms")) terms_page in
  checks terms_page = [false; true; false]
  /\ fst r = Some tt
  /\ checks (fst (snd r)) = [false; false; false]
  /\ last_clicked (fst (snd r)) (snd (snd r)) = Some 2%nat
  /\ existsb component_call (snd (snd r)) = true.
Proof. repeat split; vm_compute; reflexivity. Qed.

(** C4 (code bug): the select reveals its option panel (node 2), whose
    options are custom elements without the option role.  A table cell
    before the panel shows the same text.  [selectMatOptionByLabel] opens
    the select, tries the option role with the exact name, then the first
    [mat-option] containing the text, then the first element anywhere whose
    text is the option text, and returns normally after clicking that
    table cell, outside the open option list, not the option inside it. *)
Lemma select_clicks_outside_open_list :
  let r := exec (selectMatOptionByLabel "Country of establishment" "Slovakia") country_page in
  fst r = Some tt
  /\ snd (snd r)
     = [Click (ByLabel (MStr "Country of establishment") true) (Some 1000);
        WaitForVisible (ByRole "option" (MStr "Slovakia") true) 1000;
        WaitForVisible (First (TagHasText "mat-option" (MStr "Slovakia"))) 1000;
        WaitForVisible (First (TextIsSel "Slovakia")) 1000;
        Click (First (TextIsSel "Slovakia")) None]
  /\ node_ok (fst (snd r)) visible 2 = true
  /\ node_ok (fst (snd r)) (fun n => visible n && String.eqb (text n) "Slovakia") 4 = true
  /\ is_desc (fst (snd r)) 4 2 = true
  /\ last_clicked (fst (snd r)) (snd (snd r)) = Some 0%nat
  /\ is_desc (fst (snd r)) 0 2 = false.
Proof. repeat split; vm_compute; reflexivity. Qed.

End DomFacts.

(* ------------------------------------------------------------------ *)
(** ** [requireEnv] returns a fixed point *)

Module JsTextExtraFacts.
Import JsText JsTextFacts.

Lemma trim_start_keep : forall w, (w = [] \/ js_ws (hd 0 w) = false) -> trim_start w = w.
Proof.
  intros [|c w] [H|H]; try reflexivity; try discriminate.
  simpl in *. rewrite H. reflexivity.
Qed.

Lemma hd_rev : forall (w : jsstr), hd 0 (rev w) = last w 0.
Proof.
  induction w as [|c w IH] using rev_ind; [reflexivity|].
  rewrite rev_app_distr, last_last. reflexivity.
Qed.

Lemma trim_idem : forall v, trim (trim v) = trim v.
Proof.
  intro v. destruct (trim_shape v) as [pre [suf [_ [_ [_ Hs]]]]].
  set (w := trim v) in *. unfold trim.
  destruct Hs as [Hs | [Hh Hl]].
  - rewrite Hs. reflexivity.
  - rewrite (trim_start_keep w (or_intror Hh)).
    rewrite (trim_start_keep (rev w)) by (right; rewrite hd_rev; exact Hl).
    apply rev_involutive.
Qed.

(** X8: the value [requireEnv] returns is a fixed point: when the variable
    is set to the returned value, [requireEnv] returns that same value
    again, with nothing trimmed and no error. *)
Theorem requireEnv_returns_fixed_point : forall env env' name v,
  requireEnv env name = inl v -> env' name = Some v ->
  requireEnv env' name = inl v.
Proof.
  intros env env' name v H H'.
  destruct (requireEnv_trims_or_throws env name) as [E _].
  rewrite E in H. destruct (env name) as [w|]; [|discriminate].
  destruct (forallb js_ws w) eqn:Hw; [discriminate|]. injection H as <-.
  destruct (requireEnv_trims_or_throws env' name) as [E' _].
  rewrite E', H'.
  destruct (forallb js_ws (trim w)) eqn:Ht.
  - apply trim_nil_iff in Ht. rewrite trim_idem in Ht.
    apply trim_nil_iff in Ht. congruence.
  - rewrite trim_idem. reflexivity.
Qed.

Lemma requireEnv_returns_fixed_point_witness :
  requireEnv (fun _ => Some (units "  secret ")) (units "PASSWORD") = inl (units "secret")
  /\ requireEnv (fun _ => Some (units "secret")) (units "PASSWORD") = inl (units "secret").
Proof.
  assert (H : requireEnv (fun _ => Some (units "  secret ")) (units "PASSWORD")
              = inl (units "secret")) by reflexivity.
  split; [exact H|].
  exact (requireEnv_returns_fixed_point _ (fun _ => Some (units "secret")) _ _ H eq_refl).
Defined.

End JsTextExtraFacts.

(* ------------------------------------------------------------------ *)
(** ** The order in which [pdokLookupPostalCode] reads documents, and its errors *)
Module PdokOrderFacts.
Import Pdok PdokFacts.

Section FirstMatch.
Variable pc : json -> option json.
Variable scan : list json -> option json.
Hypothesis scan_nil : scan [] = None.
Hypothesis scan_cons : forall d ds, scan (d :: ds) =
  match pc d with
  | Some v => if truthy (pc d) then Some v else scan ds
  | None => scan ds
  end.

Lemma scan_first : forall ds v,
  scan ds = Some v <->
  exists pre d post, ds = pre ++ d :: post
    /\ forallb (fun d => negb (truthy (pc d))) pre = true
    /\ truthy (pc d) = true /\ pc d = Some v.
Proof.
  induction ds as [|d ds IH]; intro v.
  - rewrite scan_nil. split; [discriminate|].
    intros [pre [d [post [H _]]]]. destruct pre; discriminate H.
  - rewrite scan_cons.
    assert (Hskip : truthy (pc d) = false ->
      (scan ds = Some v <-> exists pre d' post, d :: ds = pre ++ d' :: post
        /\ forallb (fun d => negb (truthy (pc d))) pre = true
        /\ truthy (pc d') = true /\ pc d' = Some v)).
    { intro F. rewrite IH. split.
      - intros [pre [d' [post [H1 [H2 H3]]]]]. exists (d :: pre), d', post.
        rewrite H1. simpl. rewrite F, H2. auto.
      - intros [[|x pre] [d' [post [H1 [H2 H3]]]]]; simpl in H1; injection H1 as <- H1.
        + destruct H3 as [H3 _]. congruence.
        + simpl in H2. rewrite F in H2. exists pre, d', post. auto. }
    destruct (pc d) as [w|] eqn:E.
    + destruct (truthy (Some w)) eqn:T.
      * split.
        -- intro H. injection H as <-. exists [], d, ds. rewrite E. auto.
        -- intros [[|x pre] [d' [post [H1 [H2 H3]]]]]; simpl in H1; injection H1 as <- H1.
           ++ rewrite E in H3. destruct H3 as [_ H3]. exact H3.
           ++ simpl in H2. rewrite E, T in H2. discriminate H2.
      * apply Hskip. reflexivity.
    + apply Hskip. reflexivity.
Qed.
End FirstMatch.

Lemma scan_docs_first : forall ds v,
  scan_docs ds = Some v <->
  exists pre d post, ds = pre ++ d :: post
    /\ forallb (fun d => negb (carries_postcode d)) pre = true
    /\ carries_postcode d = true /\ doc_postcode d = Some v.
Proof.
  intros ds v. rewrite (scan_first doc_postcode scan_docs eq_refl
    ltac:(intros; reflexivity)).
  assert (Hf : forall l, forallb (fun d => negb (truthy (doc_postcode d))) l
                         = forallb (fun d => negb (carries_postcode d)) l).
  { induction l; simpl; [reflexivity|]. rewrite doc_postcode_truthy, IHl. reflexivity. }
  setoid_rewrite Hf. setoid_rewrite doc_postcode_truthy. reflexivity.
Qed.

(** X1: the lookup returns a postal code exactly when the response is a
    success and some document of [response.docs] carries a postal code; it
    returns the one of the first such document, under [postcode], else
    [postalcode], else [pc6]. *)
Theorem pdok_returns_first_carrying_doc :
  forall (enc : string -> string) (get : string -> response) street houseNumber city v,
  let resp := get (lookup_url enc street houseNumber city) in
  pdokLookupPostalCode enc get street houseNumber city = Found v <->
  ok resp = true /\
  exists pre d post, candidate_docs resp = pre ++ d :: post
    /\ forallb (fun d => negb (carries_postcode d)) pre = true
    /\ carries_postcode d = true /\ doc_postcode d = Some v.
Proof.
  intros enc get street houseNumber city v resp.
  unfold pdokLookupPostalCode, candidate_docs. fold resp.
  destruct (ok resp) eqn:Hok.
  2:{ simpl. split; [discriminate|intros [H _]; discriminate H]. }
  cbn [negb].
  destruct (body resp) as [d|].
  2:{ simpl. split; [discriminate|]. intros [_ [pre [d [post [H _]]]]]. destruct pre; discriminate H. }
  destruct (prop (prop (Some d) "response") "docs") as [j|].
  2:{ simpl. split; [discriminate|]. intros [_ [pre [d' [post [H _]]]]]. destruct pre; discriminate H. }
  destruct j as [|b|n|s|xs|fs]; unfold js_or, truthy; simpl;
    try (destruct b); try (destruct (n =? 0)); try (destruct (String.eqb s ""));
    simpl; try rewrite scan_docs_chars;
    try (split; [discriminate|intros [_ [pre [d' [post [H _]]]]]; destruct pre; discriminate H]).
  rewrite <- scan_docs_first.
  destruct (scan_docs xs) as [w|]; split.
  - intro H. injection H as <-. auto.
  - intros [_ H]. injection H as ->. reflexivity.
  - discriminate.
  - intros [_ H]. discriminate H.
Qed.

Ltac pdok_cases :=
  repeat match goal with
  | |- _ /\ _ => split
  | |- _ <-> _ => split
  | |- _ -> _ => intro
  | |- forall _, _ => intro
  | |- ~ _ => intro
  | H : _ /\ _ |- _ => destruct H
  end;
  try reflexivity; try discriminate; try congruence;
  try (exfalso; match goal with H : forall _, _ <> _ |- _ => eapply H; reflexivity end).

(** X2: how the lookup fails: a non-success status fails with that status
    whatever the body; a body that is not JSON fails as such; a response
    without a truthy [response.docs] (missing, [null], empty string, ...)
    fails with the "no postcode" error for the query; the iteration error
    arises exactly for a truthy [response.docs] that is neither an array nor
    a string; a non-empty string as [docs] is iterated character by
    character and never yields a postal code. *)
Theorem pdok_failure_kinds :
  forall (enc : string -> string) (get : string -> response) street houseNumber city,
  let resp := get (lookup_url enc street houseNumber city) in
  let res := pdokLookupPostalCode enc get street houseNumber city in
  let docs := match body resp with
              | Some d => prop (prop (Some d) "response") "docs"
              | None => None
              end in
  (ok resp = false -> res = Failed (HttpFailed (status resp)))
  /\ (ok resp = true -> body resp = None -> res = Failed InvalidJson)
  /\ (ok resp = true -> body resp <> None -> truthy docs = false ->
        res = Failed (NoPostcode (lookup_query street houseNumber city)))
  /\ (forall s, ok resp = true -> docs = Some (JStr s) ->
        res = Failed (NoPostcode (lookup_query street houseNumber city)))
  /\ (res = Failed NotIterable <->
        ok resp = true /\ truthy docs = true
        /\ (forall xs, docs <> Some (JArr xs)) /\ (forall s, docs <> Some (JStr s))).
Proof.
  intros enc get street houseNumber city resp res docs.
  unfold res, docs, pdokLookupPostalCode. fold resp.
  destruct (ok resp) eqn:Hok; cbn [negb].
  2:{ simpl. pdok_cases. }
  destruct (body resp) as [d|]; [|simpl; pdok_cases].
  destruct (prop (prop (Some d) "response") "docs") as [j|]; [|simpl; pdok_cases].
  destruct j as [|b|n|s|xs|fs]; unfold js_or; simpl;
    try (destruct b); try (destruct (n =? 0)); try (destruct (String.eqb s "") eqn:Es);
    simpl; try rewrite scan_docs_chars; try (destruct (scan_docs xs)); pdok_cases.
Qed.

End PdokOrderFacts.

(* ------------------------------------------------------------------ *)
(** ** The geocoding lookup of the end-to-end spec *)

Module GeocodingFacts.
Import Pdok E2eSpec PdokFacts PdokOrderFacts.

Lemma scan_features_first : forall fs v,
  scan_features fs = Some v <->
  exists pre f post, fs = pre ++ f :: post
    /\ forallb (fun f => negb (truthy (feature_postcode f))) pre = true
    /\ truthy (feature_postcode f) = true /\ feature_postcode f = Some v.
Proof.
  exact (scan_first feature_postcode scan_features eq_refl ltac:(intros; reflexivity)).
Qed.

Lemma scan_features_chars : forall s, scan_features (chars s) = None.
Proof.
  intro s. unfold chars. induction (list_ascii_of_string s); simpl; auto.
Qed.

(** X3: the geocoding variant of the lookup in the end-to-end spec returns
    a postal code exactly when the response is a success and some element
    of [features] has a truthy [properties.postcode] or
    [properties.postalcode]; it returns the one of the first such feature,
    [postcode] before [postalcode].  A successful JSON body without a truthy
    [features] (such as a locatieserver body, which carries
    [response.docs]) fails with the "no postcode" error for the query. *)
Theorem geocoding_lookup_first_feature :
  forall (enc : string -> string) (get : string -> response) street houseNumber city,
  let resp := get (geocoding_url enc street houseNumber city) in
  (forall v,
     E2eSpec.pdokLookupPostalCode enc get street houseNumber city = Found v <->
     ok resp = true /\
     exists pre f post, candidate_features resp = pre ++ f :: post
       /\ forallb (fun f => negb (truthy (feature_postcode f))) pre = true
       /\ truthy (feature_postcode f) = true /\ feature_postcode f = Some v)
  /\ (forall d, ok resp = true -> body resp = Some d ->
        truthy (prop (Some d) "features") = false ->
        E2eSpec.pdokLookupPostalCode enc get street houseNumber city
        = Failed (NoPostcode (lookup_query street houseNumber city))).
Proof.
  intros enc get street houseNumber city resp. split.
  - intro v. unfold E2eSpec.pdokLookupPostalCode, candidate_features. fold resp.
    destruct (ok resp) eqn:Hok.
    2:{ simpl. split; [discriminate|intros [H _]; discriminate H]. }
    cbn [negb]. destruct (body resp) as [d|].
    2:{ simpl. split; [discriminate|]. intros [_ [pre [f [post [H _]]]]]. destruct pre; discriminate H. }
    destruct (prop (Some d) "features") as [j|].
    2:{ simpl. split; [discriminate|]. intros [_ [pre [f [post [H _]]]]]. destruct pre; discriminate H. }
    destruct j as [|b|n|s|xs|fs]; unfold js_or, truthy; simpl;
      try (destruct b); try (destruct (n =? 0)); try (destruct (String.eqb s ""));
      simpl; try rewrite scan_features_chars;
      try (split; [discriminate|intros [_ [pre [f [post [H _]]]]]; destruct pre; discriminate H]).
    rewrite <- scan_features_first.
    destruct (scan_features xs) as [w|]; split.
    + intro H. injection H as <-. auto.
    + intros [_ H]. injection H as ->. reflexivity.
    + discriminate.
    + intros [_ H]. discriminate H.
  - intros d Hok Hb Hf. unfold E2eSpec.pdokLookupPostalCode. fold resp.
    rewrite Hok, Hb. cbn [negb]. unfold js_or. rewrite Hf. reflexivity.
Qed.

End GeocodingFacts.

(* ------------------------------------------------------------------ *)
(** ** The calls of [setInputValue] *)

Module InputFacts.
Import Locators MonadNotations Dom Pages.

Section AnyBrowser.
Context {P : Type} `{Browser P}.

(** X4: on a normal return, [setInputValue] made exactly these calls, in
    this order, each on the page the previous one left: click the field,
    fill it, read its value back, then (only when the value read back
    differs) clear it and type the value key by key, then assert the value
    and press Tab.  Every call but the Tab returned normally; the page on
    return is the one the Tab left, or the one before it when the Tab
    rejected. *)
Theorem setInputValue_call_sequence : forall l v p tr x p' tr',
  setInputValue l v (p, tr) = (Some x, (p', tr')) ->
  exists r1 p1 r2 p2 cur p3 p4 r5 p5,
    run (Click l (Some 1000)) p = (Some r1, p1)
    /\ run (Fill l v) p1 = (Some r2, p2)
    /\ run (InputValue l) p2 = (Some (RStr cur), p3)
    /\ (if String.eqb cur v then p4 = p3
        else exists r3 p3' r4, run (Fill l "") p3 = (Some r3, p3')
                               /\ run (PressSequentially l v) p3' = (Some r4, p4))
    /\ run (ExpectValue l v) p4 = (Some r5, p5)
    /\ p' = snd (run (Press l "Tab") p5)
    /\ tr' = tr ++ [Click l (Some 1000); Fill l v; InputValue l]
             ++ (if String.eqb cur v then [] else [Fill l ""; PressSequentially l v])
             ++ [ExpectValue l v; Press l "Tab"].
Proof.
  intros l v p tr x p' tr' H0.
  destruct (DomFacts.setInputValue_run l v p tr x p' tr' H0)
    as (r1 & p1 & r2 & p2 & cur & p3 & p4 & r5 & p5 & Hc & Hf & Hi & Hre & He & Hp & Ht).
  exists r1, p1, r2, p2, cur, p3, p4, r5, p5. auto 7.
Qed.

End AnyBrowser.

Lemma setInputValue_call_sequence_witness :
  let r := exec (setInputValue (IdSel "start") "01-02-2025") date_page in
  fst r = Some tt /\
  exists r1 p1 r2 p2 cur p3 p4 r5 p5,
    run (Click (IdSel "start") (Some 1000)) date_page = (Some r1, p1)
    /\ run (Fill (IdSel "start") "01-02-2025") p1 = (Some r2, p2)
    /\ run (InputValue (IdSel "start")) p2 = (Some (RStr cur), p3)
    /\ (if String.eqb cur "01-02-2025" then p4 = p3
        else exists r3 p3' r4, run (Fill (IdSel "start") "") p3 = (Some r3, p3')
                               /\ run (PressSequentially (IdSel "start") "01-02-2025") p3' = (Some r4, p4))
    /\ run (ExpectValue (IdSel "start") "01-02-2025") p4 = (Some r5, p5)
    /\ fst (snd r) = snd (run (Press (IdSel "start") "Tab") p5)
    /\ snd (snd r) = [Click (IdSel "start") (Some 1000); Fill (IdSel "start") "01-02-2025"; InputValue (IdSel "start")]
             ++ (if String.eqb cur "01-02-2025" then [] else [Fill (IdSel "start") ""; PressSequentially (IdSel "start") "01-02-2025"])
             ++ [ExpectValue (IdSel "start") "01-02-2025"; Press (IdSel "start") "Tab"].
Proof.
  intro r. split; [vm_compute; reflexivity|].
  apply (setInputValue_call_sequence (IdSel "start") "01-02-2025" date_page [] tt
           (fst (snd r)) (snd (snd r))).
  vm_compute. reflexivity.
Defined.

End InputFacts.

(* ------------------------------------------------------------------ *)
(** ** [clickNext] and [waitAfterOpenForm] on a page of nodes *)

Module DomExtraFacts.
Import Locators MonadNotations Dom Observe ExtraObserve.

Lemma last_one_app : forall xs i, last_one (xs ++ [i]) = [i].
Proof. intros. unfold last_one. rewrite rev_app_distr. reflexivity. Qed.

(** X5: the end-to-end spec's [clickNext] (and its second copy of
    [clickProceed]) clicks [getByRole('button', { name })] in strict mode:
    when the name matches no button or several buttons, the call rejects
    after recording the click, the page is unchanged and there is no wait;
    when it matches exactly one visible and enabled button, it activates that
    button and then waits for the network to go idle and 250 ms.  The
    [clickProceed] of src/utils/elements.ts instead acts on the last of the
    matching buttons, whenever there is one. *)
Theorem clickNext_strict_clickProceed_last : forall t pg tr,
  let b := E2eSpec.next_button t in
  (List.length (eval pg None b) <> 1%nat ->
     E2eSpec.clickNext t (pg, tr) = (None, (pg, tr ++ [Click b None]))
     /\ E2eSpec.clickProceed t (pg, tr) = (None, (pg, tr ++ [Click b None])))
  /\ (forall i n, eval pg None b = [i] -> nth_error pg i = Some n ->
        visible n && enabled n = true ->
        E2eSpec.clickNext t (pg, tr)
        = (Some tt, (activate pg i, tr ++ [Click b None; WaitForLoadState "networkidle";
                                           WaitForTimeout 250]))
        /\ E2eSpec.clickProceed t (pg, tr)
        = (Some tt, (activate pg i, tr ++ [Click b None; WaitForLoadState "networkidle";
                                           WaitForTimeout 250])))
  /\ (forall xs i, eval pg None b = xs ++ [i] -> the_one pg (proceed_button t) = Some i).
Proof.
  intros t pg tr b. subst b. split; [|split].
  - intro Hn.
    assert (Hr : run (Click (E2eSpec.next_button t) None) pg = (None, pg)).
    { change (run ?a pg) with (dom_run a pg).
      unfold dom_run, on_one, the_one.
      destruct (eval pg None (E2eSpec.next_button t)) as [|i [|j r]];
        [reflexivity| |reflexivity].
      exfalso. apply Hn. reflexivity. }
    unfold E2eSpec.clickNext, E2eSpec.clickProceed, act_, act, bind; cbn [fst snd].
    rewrite Hr. split; reflexivity.
  - intros i n He Hi Hv.
    unfold E2eSpec.clickNext, E2eSpec.clickProceed, waitForStableLoad, act_, act, bind, ret;
      cbn [fst snd].
    change (run ?a pg) with (dom_run a pg).
    split; unfold dom_run at 1, on_one, the_one; rewrite He, Hi, Hv; cbn;
      rewrite <- !app_assoc; reflexivity.
  - intros xs i He. unfold the_one, proceed_button.
    change (eval pg None (Last (ByRole "button" (MStr t) false)))
      with (last_one (eval pg None (E2eSpec.next_button t))).
    rewrite He, last_one_app. reflexivity.
Qed.

Lemma eval_form_heading : forall pg,
  eval pg None Wait.form_heading = service_provider_headings pg.
Proof. intro pg. reflexivity. Qed.

(** X6: [waitAfterOpenForm] never changes the page; it records the load
    wait, the 250 ms pause and the heading assertion (20 s in
    src/unnamed/part_002, 15 s in the end-to-end spec), and it resolves
    exactly when a single heading in the accessibility tree has a name
    containing "service provider" in any letter case, and that heading is
    visible. *)
Theorem waitAfterOpenForm_single_visible_heading : forall pg tr,
  let found := match service_provider_headings pg with
               | [i] => match nth_error pg i with Some n => visible n | None => false end
               | _ => false
               end in
  let calls := [WaitForLoadState "networkidle"; WaitForTimeout 250] in
  Wait.waitAfterOpenForm (pg, tr)
    = (if found then Some tt else None,
       (pg, tr ++ calls ++ [ExpectVisible Wait.form_heading (Some 20000)]))
  /\ E2eSpec.waitAfterOpenForm (pg, tr)
    = (if found then Some tt else None,
       (pg, tr ++ calls ++ [ExpectVisible Wait.form_heading (Some 15000)])).
Proof.
  intros pg tr found calls.
  unfold Wait.waitAfterOpenForm, E2eSpec.waitAfterOpenForm, waitForStableLoad,
         act_, act, bind, ret; cbn [fst snd].
  change (run ?a ?p) with (dom_run a p).
  cbn [dom_run]. unfold on_one, the_one. rewrite eval_form_heading. cbn [fst snd].
  unfold found, calls.
  destruct (service_provider_headings pg) as [|i [|j r]].
  3: split; cbn; rewrite <- !app_assoc; reflexivity.
  1: split; cbn; rewrite <- !app_assoc; reflexivity.
  destruct (nth_error pg i) as [n|]; [|split; cbn; rewrite <- !app_assoc; reflexivity].
  unfold when. destruct (visible n); split; cbn; rewrite <- !app_assoc; reflexivity.
Qed.

End DomExtraFacts.
